(* ===================================================================== *)
(* Reviewer resolution engine (src/reviewer.js): a shallow embedding of    *)
(* its six exported operations and of the platform boundary that feeds    *)
(* them, with their properties.                                           *)
(* ===================================================================== *)

From Stdlib Require Import String Ascii List Bool Arith Lia.
From ExtLib Require Import Structures.Monad Structures.MonadState Structures.MonadExc.
From ExtLib Require Import Data.Monads.StateMonad Data.Monads.EitherMonad.
Import ListNotations.
Import MonadNotation.
Local Open Scope monad_scope.
Local Open Scope string_scope.
Local Open Scope list_scope.

#[local] Existing Instance Monad_stateT.

(* --------------------------------------------------------------------- *)
(* Data model                                                             *)
(* --------------------------------------------------------------------- *)

(* Reviewer identifiers, file names, glob patterns and group names are
   JavaScript strings compared with === (or Array.prototype.includes,
   which agrees with === on strings). *)
Definition ident := string.

(* A parsed YAML mapping whose values are sequences of identifiers, in
   Object.entries order.  Keys of a JavaScript object are unique; [get]
   reads the first binding of a key. *)
Definition dict := list (string * list ident).

Fixpoint get (d : dict) (k : string) : option (list ident) :=
  match d with
  | [] => None
  | (k', v) :: rest => if String.eqb k' k then Some v else get rest k
  end.

Definition keys (d : dict) : list string := map fst d.

(* config.reviewers *)
Record Reviewers := {
  defaults : option (list ident);   (* None: absent or not an array *)
  groups : option dict;
  per_author : option dict
}.

(* config.options; None is an absent key, which the spread
   { ...DEFAULT_OPTIONS, ...config.options } leaves at its default. *)
Record Options := {
  enable_group_assignment : option bool;
  last_files_match_only : option bool;
  ignore_draft : option bool;
  ignored_keywords : option (list string);
  number_of_reviewers : option nat
}.

Record Config := {
  cfg_reviewers : option Reviewers;
  cfg_files : option dict;
  cfg_options : option Options
}.

Record ChangeSet := {
  added : list string;
  removed : list string;
  modified : list string
}.

Record ChangedFiles := {
  cf_total : ChangeSet;
  cf_last : ChangeSet
}.

(* One option of config.options, with the default it takes when
   config.options or the key is missing. *)
Definition option_or {A} (field : Options -> option A) (dflt : A) (config : Config) : A :=
  match cfg_options config with
  | Some o => match field o with Some v => v | None => dflt end
  | None => dflt
  end.

(* (config.reviewers && config.reviewers.groups) || {} *)
Definition groups_of (config : Config) : dict :=
  match cfg_reviewers config with
  | Some r => match groups r with Some g => g | None => [] end
  | None => []
  end.

(* --------------------------------------------------------------------- *)
(* Array helpers                                                          *)
(* --------------------------------------------------------------------- *)

(* Array.prototype.includes on an array of strings *)
Definition includes (l : list string) (x : string) : bool :=
  existsb (String.eqb x) l.

(* new Set(l) enumerated in insertion order: the first occurrence of each
   element is kept.  [seen] is the set built so far. *)
Fixpoint set_from (seen l : list string) : list string :=
  match l with
  | [] => []
  | x :: rest =>
      if includes seen x then set_from seen rest
      else x :: set_from (x :: seen) rest
  end.

Definition dedup (l : list string) : list string := set_from [] l.

(* --------------------------------------------------------------------- *)
(* replace_groups_with_individuals (private, reviewer.js:181-189)         *)
(* --------------------------------------------------------------------- *)

(* Array.isArray(groups[reviewer]) ? groups[reviewer] : reviewer,
   flattened one level by flatMap *)
Definition expand (g : dict) (reviewer : ident) : list ident :=
  match get g reviewer with
  | Some members => members
  | None => [reviewer]
  end.

Definition replace_groups_with_individuals
    (reviewers : list ident) (config : Config) (excludes : list ident) : list ident :=
  let groups := groups_of config in
  let individuals := flat_map (expand groups) reviewers in
  let deduplicated_individuals := dedup individuals in
  filter (fun individual => negb (includes excludes individual)) deduplicated_individuals.

(* --------------------------------------------------------------------- *)
(* fetch_other_group_members (reviewer.js:7-34)                           *)
(* --------------------------------------------------------------------- *)

(* .filter((group_name) => group_name) over strings and undefined: undefined
   and the empty string are falsy *)
Fixpoint keep_truthy (l : list (option string)) : list string :=
  match l with
  | [] => []
  | None :: rest => keep_truthy rest
  | Some s :: rest => if String.eqb s "" then keep_truthy rest else s :: keep_truthy rest
  end.

Definition fetch_other_group_members (author : ident) (config : Config) : list ident :=
  let should_group_assign := option_or enable_group_assignment false config in
  if negb should_group_assign then []
  else
    let groups := groups_of config in
    let belonging_group_names :=
      keep_truthy
        (map (fun '(group_name, members) =>
                if includes members author then Some group_name else None)
             groups) in
    let other_group_members :=
      filter (fun group_member => negb (String.eqb group_member author))
        (flat_map (fun group_name =>
                     match get groups group_name with Some m => m | None => [] end)
                  belonging_group_names) in
    dedup other_group_members.

(* --------------------------------------------------------------------- *)
(* identify_reviewers_by_changed_files (reviewer.js:36-107)               *)
(* --------------------------------------------------------------------- *)

(* The accumulator object literal of line 53. *)
Record Buckets := {
  matched : list ident;
  must_be_added : list ident;
  should_be_added : list ident;
  could_be_removed : list ident
}.

Definition no_buckets : Buckets :=
  {| matched := []; must_be_added := []; should_be_added := []; could_be_removed := [] |}.

Inductive Key := k_matched | k_must_be_added | k_should_be_added | k_could_be_removed.

Definition bucket (k : Key) (b : Buckets) : list ident :=
  match k with
  | k_matched => matched b
  | k_must_be_added => must_be_added b
  | k_should_be_added => should_be_added b
  | k_could_be_removed => could_be_removed b
  end.

Definition set_bucket (k : Key) (v : list ident) (b : Buckets) : Buckets :=
  match k with
  | k_matched =>
      {| matched := v; must_be_added := must_be_added b;
         should_be_added := should_be_added b; could_be_removed := could_be_removed b |}
  | k_must_be_added =>
      {| matched := matched b; must_be_added := v;
         should_be_added := should_be_added b; could_be_removed := could_be_removed b |}
  | k_should_be_added =>
      {| matched := matched b; must_be_added := must_be_added b;
         should_be_added := v; could_be_removed := could_be_removed b |}
  | k_could_be_removed =>
      {| matched := matched b; must_be_added := must_be_added b;
         should_be_added := should_be_added b; could_be_removed := v |}
  end.

Inductive js_error := TypeError | ReferenceError.

(* What the function returns: the bare [] of line 49, or the object of
   line 106 with its four processed buckets. *)
Inductive FilesResult :=
| EmptyArray
| Classification (b : Buckets).

(* The code mutates the accumulator in place and may throw: a state monad
   over the accumulator, on top of the error monad. *)
Definition M := stateT Buckets (sum js_error).

(* What an identifier of the function can be bound to: the accumulator
   object, or an array of identifiers taken from the policy. *)
Inductive binding :=
| Accumulator
| PolicyArray (xs : list ident).

(* The result of evaluating obj.key: a reference to one of the
   accumulator's arrays, or undefined. *)
Inductive member_value :=
| BucketRef (k : Key)
| Undefined.

(* Lexical scopes, innermost binding first. *)
Definition scope := list (string * binding).

Fixpoint resolve (sc : scope) (x : string) : M binding :=
  match sc with
  | [] => raise ReferenceError
  | (y, b) :: outer => if String.eqb y x then ret b else resolve outer x
  end.

(* const reviewers = { matched: [], ... } in the function body *)
Definition function_scope : scope := [("reviewers", Accumulator)].

(* ([ glob_pattern, reviewers ]) => { ... }: the callback's second
   parameter is bound in a scope nested in the function's *)
Definition callback_scope (rule_reviewers : list ident) : scope :=
  ("reviewers", PolicyArray rule_reviewers) :: function_scope.

(* obj.key, for key one of the four bucket names: an array has only index
   properties, length and the methods of Array.prototype *)
Definition member (obj : binding) (k : Key) : member_value :=
  match obj with
  | Accumulator => BucketRef k
  | PolicyArray _ => Undefined
  end.

(* target.length = 0 *)
Definition set_length_zero (target : member_value) : M unit :=
  match target with
  | BucketRef k => modify (set_bucket k []) ;; ret tt
  | Undefined => raise TypeError
  end.

(* ...obj in an argument list *)
Definition spread (obj : binding) : M (list ident) :=
  match obj with
  | PolicyArray xs => ret xs
  | Accumulator => raise TypeError
  end.

(* target.push: reading a property of undefined throws before the
   arguments are evaluated *)
Definition push_method (target : member_value) : M (list ident -> M unit) :=
  match target with
  | BucketRef k => ret (fun items => modify (fun b => set_bucket k (bucket k b ++ items) b) ;; ret tt)
  | Undefined => raise TypeError
  end.

(* reviewers.<key>.push(...reviewers), evaluated in scope sc *)
Definition push_reviewers (sc : scope) (k : Key) : M unit :=
  obj <- resolve sc "reviewers" ;;
  push <- push_method (member obj k) ;;
  arg <- resolve sc "reviewers" ;;
  items <- spread arg ;;
  push items.

(* reviewers.<key>.length = 0, evaluated in scope sc *)
Definition clear_reviewers (sc : scope) (k : Key) : M unit :=
  obj <- resolve sc "reviewers" ;;
  set_length_zero (member obj k).

Definition when (c : bool) (body : M unit) : M unit :=
  if c then body else ret tt.

(* Array.prototype.forEach *)
Fixpoint forEach {A} (body : A -> M unit) (l : list A) : M unit :=
  match l with
  | [] => ret tt
  | x :: rest => body x ;; forEach body rest
  end.

Section FileRules.

(* minimatch(changed_file, glob_pattern), from the minimatch package *)
Variable minimatch : string -> string -> bool.

(* The body of the forEach callback, lines 61-99. *)
Definition file_rule (last_files_match_only : bool) (changed_files : ChangedFiles)
    (entry : string * list ident) : M unit :=
  let '(glob_pattern, rule_reviewers) := entry in
  let sc := callback_scope rule_reviewers in
  let has_matches := fun changed_file => minimatch changed_file glob_pattern in
  let last := cf_last changed_files in
  let total := cf_total changed_files in
  let last_changed_files := added last ++ removed last ++ modified last in
  when (existsb has_matches last_changed_files)
    (when last_files_match_only (clear_reviewers sc k_matched) ;;
     push_reviewers sc k_matched) ;;
  when (existsb has_matches (modified last))
    (push_reviewers sc k_should_be_added) ;;
  let added_or_deleted := added last ++ removed last in
  when (existsb has_matches added_or_deleted)
    (push_reviewers sc k_must_be_added) ;;
  let all_changed_files := added total ++ removed total ++ modified total in
  let reverted_files :=
    filter (fun changed_file => negb (includes all_changed_files changed_file))
           last_changed_files in
  when (existsb has_matches reverted_files)
    (push_reviewers sc k_could_be_removed).

(* Object.entries(reviewers).reduce(...) of lines 101-104, where
   reviewers is the accumulator again *)
Definition process (config : Config) (excludes : list ident) (acc : Buckets) : Buckets :=
  {| matched := replace_groups_with_individuals (matched acc) config excludes;
     must_be_added := replace_groups_with_individuals (must_be_added acc) config excludes;
     should_be_added := replace_groups_with_individuals (should_be_added acc) config excludes;
     could_be_removed := replace_groups_with_individuals (could_be_removed acc) config excludes |}.

Definition identify_reviewers_by_changed_files
    (config : Config) (changed_files : ChangedFiles) (excludes : list ident)
    : js_error + FilesResult :=
  let last_files_match_only := option_or last_files_match_only false config in
  match cfg_files config with
  | None => inr EmptyArray
  | Some files =>
      match runStateT (forEach (file_rule last_files_match_only changed_files) files)
                      no_buckets with
      | inl e => inl e
      | inr (_, reviewers) => inr (Classification (process config excludes reviewers))
      end
  end.

(* [].concat(last.added, last.removed, last.modified), lines 63-67 *)
Definition last_changed_files (changed_files : ChangedFiles) : list string :=
  added (cf_last changed_files) ++ removed (cf_last changed_files)
    ++ modified (cf_last changed_files).

(* The test of line 69 for one rule: last_changed_files.some(has_matches) *)
Definition rule_applies (changed_files : ChangedFiles) (entry : string * list ident) : bool :=
  existsb (fun changed_file => minimatch changed_file (fst entry))
          (last_changed_files changed_files).

End FileRules.

(* --------------------------------------------------------------------- *)
(* identify_reviewers_by_author (reviewer.js:109-136)                     *)
(* --------------------------------------------------------------------- *)

Definition identify_reviewers_by_author (config : Config) (specified_author : ident)
    : list ident :=
  match cfg_reviewers config with
  | None => []
  | Some r =>
      match per_author r with
      | None => []
      | Some per_author =>
          let matching_authors :=
            filter (fun author =>
                      if String.eqb author specified_author then true
                      else
                        let individuals_in_author_setting :=
                          replace_groups_with_individuals [author] config [] in
                        if includes individuals_in_author_setting specified_author then true
                        else false)
                   (keys per_author) in
          let matching_reviewers :=
            flat_map (fun matching_author =>
                        let reviewers :=
                          match get per_author matching_author with
                          | Some l => l
                          | None => []
                          end in
                        replace_groups_with_individuals reviewers config [])
                     matching_authors in
          filter (fun reviewer => negb (String.eqb reviewer specified_author))
                 matching_reviewers
      end
  end.

(* --------------------------------------------------------------------- *)
(* should_request_review (reviewer.js:138-154)                            *)
(* --------------------------------------------------------------------- *)

(* String.prototype.includes: keyword occurs in s at some position *)
Fixpoint str_includes (s keyword : string) : bool :=
  if String.prefix keyword s then true
  else match s with
       | EmptyString => false
       | String _ s' => str_includes s' keyword
       end.

(* keyword occurs in s as a literal substring *)
Definition occurs_in (keyword s : string) : Prop :=
  exists before after, s = (before ++ keyword ++ after)%string.

Definition should_request_review (title : string) (is_draft : bool) (config : Config) : bool :=
  let should_ignore_draft := option_or ignore_draft true config in
  let ignored_keywords := option_or ignored_keywords [ "DO NOT REVIEW" ] config in
  if should_ignore_draft && is_draft then false
  else negb (existsb (fun keyword => str_includes title keyword) ignored_keywords).

(* --------------------------------------------------------------------- *)
(* fetch_default_reviewers (reviewer.js:156-165)                          *)
(* --------------------------------------------------------------------- *)

Definition fetch_default_reviewers (config : Config) (excludes : list ident) : list ident :=
  match cfg_reviewers config with
  | None => []
  | Some r =>
      match defaults r with
      | None => []
      | Some defaults =>
          let individuals := replace_groups_with_individuals defaults config [] in
          filter (fun reviewer => negb (includes excludes reviewer)) (dedup individuals)
      end
  end.

(* --------------------------------------------------------------------- *)
(* randomly_pick_reviewers (reviewer.js:167-177)                          *)
(* --------------------------------------------------------------------- *)

(* const { number_of_reviewers } = { ...config.options }; None is undefined *)
Definition number_of_reviewers_of (config : Config) : option nat :=
  match cfg_options config with
  | Some o => number_of_reviewers o
  | None => None
  end.

Fixpoint remove_at {A} (j : nat) (l : list A) {struct l} : list A :=
  match l, j with
  | [], _ => []
  | _ :: rest, 0 => rest
  | x :: rest, S j' => x :: remove_at j' rest
  end.

Section Sampler.

(* The random source: the i-th number drawn. *)
Variable draw : nat -> nat.

(** Modelled from the spec: lodash's sampleSize, required at line 5 and not
    part of the sources.  The spec describes it as returning a random subset
    of the requested size drawn without replacement, capped at the size of
    the population: each round takes one element out of the remaining pool,
    at the position chosen by the random source. *)
Fixpoint sample_from (i : nat) (pool : list ident) (n : nat) : list ident :=
  match n with
  | 0 => []
  | S n' =>
      match pool with
      | [] => []
      | x :: _ =>
          let j := draw i mod length pool in
          nth j pool x :: sample_from (S i) (remove_at j pool) n'
      end
  end.

Definition sample_size (collection : list ident) (n : nat) : list ident :=
  sample_from 0 collection n.

Definition randomly_pick_reviewers (reviewers : list ident) (config : Config) : list ident :=
  match number_of_reviewers_of config with
  | None => reviewers
  | Some number_of_reviewers => sample_size reviewers number_of_reviewers
  end.

End Sampler.

(* --------------------------------------------------------------------- *)
(* Inputs used in the examples                                            *)
(* --------------------------------------------------------------------- *)

Definition no_options : Options :=
  {| enable_group_assignment := None; last_files_match_only := None;
     ignore_draft := None; ignored_keywords := None; number_of_reviewers := None |}.

Definition empty_config : Config :=
  {| cfg_reviewers := None; cfg_files := None; cfg_options := None |}.

Definition no_changes : ChangeSet := {| added := []; removed := []; modified := [] |}.

(* A glob matcher for the patterns of the examples: * stands for any run
   of characters, ? for one character, anything else for itself. *)
Fixpoint glob (fuel : nat) (file pattern : string) : bool :=
  match fuel with
  | 0 => false
  | S fuel' =>
      match pattern, file with
      | EmptyString, EmptyString => true
      | EmptyString, String _ _ => false
      | String "*" p', EmptyString => glob fuel' file p'
      | String "*" p', String _ f' => glob fuel' file p' || glob fuel' f' pattern
      | String _ _, EmptyString => false
      | String c p', String d f' =>
          (Ascii.eqb c "?" || Ascii.eqb c d) && glob fuel' f' p'
      end
  end.

Definition simple_glob (file pattern : string) : bool :=
  glob (S (String.length file + String.length pattern)) file pattern.

Definition with_options (o : Options) : Config :=
  {| cfg_reviewers := None; cfg_files := None; cfg_options := Some o |}.

(* The revert example: one rule "*.txt" -> ["bob"], a.txt added by the last
   commit and absent from the whole diff. *)
Definition revert_config : Config :=
  {| cfg_reviewers := None; cfg_files := Some [("*.txt", ["bob"])]; cfg_options := None |}.

Definition revert_changes : ChangedFiles :=
  {| cf_total := no_changes;
     cf_last := {| added := ["a.txt"]; removed := []; modified := [] |} |}.

(* The same rule with last_files_match_only switched on, after a broader one. *)
Definition override_config : Config :=
  {| cfg_reviewers := None;
     cfg_files := Some [("*", ["alice"]); ("*.txt", ["bob"])];
     cfg_options :=
       Some {| enable_group_assignment := None; last_files_match_only := Some true;
               ignore_draft := None; ignored_keywords := None;
               number_of_reviewers := None |} |}.

(* A files key that is present and empty. *)
Definition empty_files_config : Config :=
  {| cfg_reviewers := None; cfg_files := Some []; cfg_options := None |}.

(* alice is a rule key herself and a member of the group "team", another
   rule key; both rules list bob. *)
Definition overlap_config : Config :=
  {| cfg_reviewers :=
       Some {| defaults := Some ["team"; "bob"; "carol"];
               groups := Some [("team", ["alice"; "carol"])];
               per_author := Some [("alice", ["bob"]); ("team", ["bob"; "alice"])] |};
     cfg_files := None;
     cfg_options :=
       Some {| enable_group_assignment := Some true; last_files_match_only := None;
               ignore_draft := None; ignored_keywords := None;
               number_of_reviewers := Some 2 |} |}.

(* ===================================================================== *)
(* The platform boundary (the github module, lines 199-493 of the file)   *)
(* ===================================================================== *)

(* --------------------------------------------------------------------- *)
(* Team prefix helpers (lines 473-483)                                    *)
(* --------------------------------------------------------------------- *)

(* s.slice(n) *)
Fixpoint drop_chars (n : nat) (s : string) : string :=
  match n, s with
  | 0, _ => s
  | S n', String _ s' => drop_chars n' s'
  | S _, EmptyString => EmptyString
  end.

(* s.replace(pattern, '') for a string pattern: the leftmost occurrence of
   pattern is removed, and s is returned as it is when there is none. *)
Fixpoint remove_first (pattern s : string) : string :=
  if String.prefix pattern s then drop_chars (String.length pattern) s
  else match s with
       | EmptyString => EmptyString
       | String c s' => String c (remove_first pattern s')
       end.

Section TeamPrefix.

(* GITHUB_TEAM_PREFIX of ./constants *)
Variable GITHUB_TEAM_PREFIX : string.

(* individual_or_team.startsWith(GITHUB_TEAM_PREFIX) *)
Definition has_team_prefix (individual_or_team : string) : bool :=
  String.prefix GITHUB_TEAM_PREFIX individual_or_team.

Definition team_with_prefix_to_team_slug (team_with_prefix : string) : string :=
  remove_first GITHUB_TEAM_PREFIX team_with_prefix.

(* [ GITHUB_TEAM_PREFIX, team_slug ].join('') *)
Definition team_slug_to_team_with_prefix (team_slug : string) : string :=
  (GITHUB_TEAM_PREFIX ++ team_slug)%string.

(* --------------------------------------------------------------------- *)
(* assign_reviewers (lines 370-384)                                       *)
(* --------------------------------------------------------------------- *)

(* What the function needs of github.context *)
Record Context := {
  owner : string;             (* context.repo.owner *)
  repo : string;              (* context.repo.repo *)
  pull_number : nat           (* context.payload.pull_request.number *)
}.

(* The argument of octokit.pulls.requestReviewers *)
Record ReviewRequest := {
  rq_owner : string;
  rq_repo : string;
  rq_pull_number : nat;
  rq_reviewers : list string;
  rq_team_reviewers : list string
}.

(* lodash's partition is the one of the standard library: the elements
   the predicate accepts, then those it rejects, each in input order. *)
Definition assign_reviewers (context : Context) (reviewers : list string) : ReviewRequest :=
  let '(teams_with_prefix, individuals) := partition has_team_prefix reviewers in
  let teams := map team_with_prefix_to_team_slug teams_with_prefix in
  {| rq_owner := owner context;
     rq_repo := repo context;
     rq_pull_number := pull_number context;
     rq_reviewers := individuals;
     rq_team_reviewers := teams |}.

(* --------------------------------------------------------------------- *)
(* filter_out_reviewers_by_individuals (lines 386-431)                    *)
(* --------------------------------------------------------------------- *)

(* The pages of octokit.teams.listMembersInOrg for an organisation and a
   team slug, each page the logins of its members. *)
Variable listMembersInOrg : string -> string -> list (list string).

(* The first loop: individuals that are not excluded are pushed. *)
Fixpoint keep_individuals (individuals_to_exclude : list string)
    (individuals_and_teams results : list string) : list string :=
  match individuals_and_teams with
  | [] => results
  | individual_or_team :: rest =>
      if has_team_prefix individual_or_team
      then keep_individuals individuals_to_exclude rest results
      else if negb (includes individuals_to_exclude individual_or_team)
      then keep_individuals individuals_to_exclude rest (results ++ [individual_or_team])
      else keep_individuals individuals_to_exclude rest results
  end.

(* The loop over a team's pages, left at the first page with an excluded
   member. *)
Fixpoint has_excluded_individuals (individuals_to_exclude : list string)
    (pages : list (list string)) : bool :=
  match pages with
  | [] => false
  | members :: rest =>
      if existsb (fun login => includes individuals_to_exclude login) members
      then true
      else has_excluded_individuals individuals_to_exclude rest
  end.

(* The second loop: teams without an excluded member are pushed. *)
Fixpoint keep_teams (org : string) (individuals_to_exclude : list string)
    (individuals_and_teams results : list string) : list string :=
  match individuals_and_teams with
  | [] => results
  | individual_or_team :: rest =>
      if negb (has_team_prefix individual_or_team)
      then keep_teams org individuals_to_exclude rest results
      else
        let team := individual_or_team in
        let pages := listMembersInOrg org (team_with_prefix_to_team_slug team) in
        if negb (has_excluded_individuals individuals_to_exclude pages)
        then keep_teams org individuals_to_exclude rest (results ++ [team])
        else keep_teams org individuals_to_exclude rest results
  end.

Definition filter_out_reviewers_by_individuals (context : Context)
    (individuals_and_teams individuals_to_exclude : list string) : list string :=
  let results := [] in
  let results := keep_individuals individuals_to_exclude individuals_and_teams results in
  keep_teams (owner context) individuals_to_exclude individuals_and_teams results.

(* --------------------------------------------------------------------- *)
(* fetch_review_info (lines 324-368)                                      *)
(* --------------------------------------------------------------------- *)

Record Review := {
  login : string;             (* user.login *)
  review_state : string      (* state *)
}.

(* One page of octokit.pulls.listRequestedReviewers: the logins of the
   users and the names of the teams. *)
Record RequestedReviewers := {
  users : list string;
  teams : list string
}.

Record ReviewInfo := {
  pending : list string;
  approved : list string;
  commented : list string;
  changes_requested : list string
}.

Definition no_review_info : ReviewInfo :=
  {| pending := []; approved := []; commented := []; changes_requested := [] |}.

(* The callback of reviews.forEach, lines 342-354. *)
Definition record_review (review_info : ReviewInfo) (review : Review) : ReviewInfo :=
  if String.eqb (review_state review) "COMMENTED" then
    {| pending := pending review_info; approved := approved review_info;
       commented := commented review_info ++ [login review];
       changes_requested := changes_requested review_info |}
  else if String.eqb (review_state review) "APPROVED" then
    {| pending := pending review_info; approved := approved review_info ++ [login review];
       commented := commented review_info;
       changes_requested := changes_requested review_info |}
  else if String.eqb (review_state review) "CHANGES_REQUESTED" then
    {| pending := pending review_info; approved := approved review_info;
       commented := commented review_info;
       changes_requested := changes_requested review_info ++ [login review] |}
  else review_info.

Definition push_pending (review_info : ReviewInfo) (reviewer : string) : ReviewInfo :=
  {| pending := pending review_info ++ [reviewer]; approved := approved review_info;
     commented := commented review_info;
     changes_requested := changes_requested review_info |}.

(* The body of the second for-await loop, lines 358-364. *)
Definition record_requested (review_info : ReviewInfo) (page : RequestedReviewers)
    : ReviewInfo :=
  let review_info := fold_left push_pending (users page) review_info in
  fold_left (fun info name => push_pending info (team_slug_to_team_with_prefix name))
            (teams page) review_info.

Definition fetch_review_info (review_pages : list (list Review))
    (requested_pages : list RequestedReviewers) : ReviewInfo :=
  let review_info := no_review_info in
  let review_info :=
    fold_left (fun info reviews => fold_left record_review reviews info)
              review_pages review_info in
  fold_left record_requested requested_pages review_info.

End TeamPrefix.

(* --------------------------------------------------------------------- *)
(* fetch_changed_files (lines 268-322)                                    *)
(* --------------------------------------------------------------------- *)

(* An entry of octokit.pulls.listFiles or of compareCommits *)
Record FileEntry := {
  filename : string;
  status : string
}.

(* file_changes.total[status].push(filename): the object has the keys
   added, removed and modified; under any other status the lookup gives
   undefined, or a value inherited from Object.prototype that has no push,
   and the call throws. *)
Definition push_by_status (changes : ChangeSet) (file : FileEntry)
    : js_error + ChangeSet :=
  if String.eqb (status file) "added" then
    inr {| added := added changes ++ [filename file]; removed := removed changes;
           modified := modified changes |}
  else if String.eqb (status file) "removed" then
    inr {| added := added changes; removed := removed changes ++ [filename file];
           modified := modified changes |}
  else if String.eqb (status file) "modified" then
    inr {| added := added changes; removed := removed changes;
           modified := modified changes ++ [filename file] |}
  else inl TypeError.

(* files.forEach(({ filename, status }) => ...) *)
Fixpoint record_files (changes : ChangeSet) (files : list FileEntry)
    : js_error + ChangeSet :=
  match files with
  | [] => inr changes
  | file :: rest =>
      changes' <- push_by_status changes file ;;
      record_files changes' rest
  end.

(* the for-await loop over the pages of listFiles *)
Fixpoint record_pages (changes : ChangeSet) (pages : list (list FileEntry))
    : js_error + ChangeSet :=
  match pages with
  | [] => inr changes
  | files :: rest =>
      changes' <- record_files changes files ;;
      record_pages changes' rest
  end.

Section ChangedFiles.

(* octokit.repos.compareCommits for a base and a head sha: its files *)
Variable compareCommits : string -> string -> list FileEntry.

(* pages: what listFiles yields; commits: the shas of listCommits *)
Definition fetch_changed_files (pages : list (list FileEntry)) (commits : list string)
    : js_error + ChangedFiles :=
  total <- record_pages no_changes pages ;;
  if Nat.ltb 1 (length commits) then
    (* const [ prev, last ] = commits.slice(-2) *)
    let prev := nth (length commits - 2) commits "" in
    let last := nth (length commits - 1) commits "" in
    last_changes <- record_files no_changes (compareCommits prev last) ;;
    ret {| cf_total := total; cf_last := last_changes |}
  else
    (* file_changes.last = file_changes.total *)
    ret {| cf_total := total; cf_last := total |}.

End ChangedFiles.

(* --------------------------------------------------------------------- *)
(* Module-level caches (lines 435-471)                                    *)
(* --------------------------------------------------------------------- *)

Section Caches.

(* github.context and the client made by github.getOctokit: objects, and
   so truthy *)
Variables GithubContext Octokit : Type.
Variable getOctokit : string -> Octokit.

(* The five module variables; None is undefined. *)
Record Caches := {
  context_cache : option GithubContext;
  token_cache : option string;
  config_path_cache : option string;
  use_local_cache : option bool;
  octokit_cache : option Octokit
}.

Definition no_caches : Caches :=
  {| context_cache := None; token_cache := None; config_path_cache := None;
     use_local_cache := None; octokit_cache := None |}.

(* What the getters read from outside: github.context and core.getInput *)
Record Env := {
  github_context : GithubContext;
  getInput : string -> string
}.

Definition G := state Caches.

(* context_cache || (context_cache = github.context) *)
Definition get_context (env : Env) : G GithubContext :=
  c <- MonadState.get ;;
  match context_cache c with
  | Some context => ret context
  | None =>
      MonadState.put {| context_cache := Some (github_context env); token_cache := token_cache c;
             config_path_cache := config_path_cache c;
             use_local_cache := use_local_cache c; octokit_cache := octokit_cache c |} ;;
      ret (github_context env)
  end.

(* a cached string counts when it is truthy, that is, not empty *)
Definition truthy_string (cache : option string) : option string :=
  match cache with
  | Some s => if String.eqb s "" then None else Some s
  | None => None
  end.

(* token_cache || (token_cache = core.getInput('token')) *)
Definition get_token (env : Env) : G string :=
  c <- MonadState.get ;;
  match truthy_string (token_cache c) with
  | Some token => ret token
  | None =>
      MonadState.put {| context_cache := context_cache c; token_cache := Some (getInput env "token");
             config_path_cache := config_path_cache c;
             use_local_cache := use_local_cache c; octokit_cache := octokit_cache c |} ;;
      ret (getInput env "token")
  end.

(* config_path_cache || (config_path_cache = core.getInput('config')) *)
Definition get_config_path (env : Env) : G string :=
  c <- MonadState.get ;;
  match truthy_string (config_path_cache c) with
  | Some config_path => ret config_path
  | None =>
      MonadState.put {| context_cache := context_cache c; token_cache := token_cache c;
             config_path_cache := Some (getInput env "config");
             use_local_cache := use_local_cache c; octokit_cache := octokit_cache c |} ;;
      ret (getInput env "config")
  end.

(* use_local_cache ?? (use_local_cache = core.getInput('use_local') === 'true') *)
Definition get_use_local (env : Env) : G bool :=
  c <- MonadState.get ;;
  match use_local_cache c with
  | Some use_local => ret use_local
  | None =>
      let use_local := String.eqb (getInput env "use_local") "true" in
      MonadState.put {| context_cache := context_cache c; token_cache := token_cache c;
             config_path_cache := config_path_cache c;
             use_local_cache := Some use_local; octokit_cache := octokit_cache c |} ;;
      ret use_local
  end.

Definition get_octokit (env : Env) : G Octokit :=
  c <- MonadState.get ;;
  match octokit_cache c with
  | Some octokit => ret octokit
  | None =>
      token <- get_token env ;;
      c' <- MonadState.get ;;
      MonadState.put {| context_cache := context_cache c'; token_cache := token_cache c';
             config_path_cache := config_path_cache c';
             use_local_cache := use_local_cache c';
             octokit_cache := Some (getOctokit token) |} ;;
      ret (getOctokit token)
  end.

(* the four assignments of clear_cache; use_local_cache is not among them *)
Definition clear_cache : G unit :=
  c <- MonadState.get ;;
  MonadState.put {| context_cache := None; token_cache := None; config_path_cache := None;
         use_local_cache := use_local_cache c; octokit_cache := None |}.

End Caches.

Arguments no_caches {GithubContext Octokit}.
Arguments github_context {GithubContext} e.
Arguments getInput {GithubContext} e name.
Arguments get_context {GithubContext Octokit} env.
Arguments get_token {GithubContext Octokit} env.
Arguments get_config_path {GithubContext Octokit} env.
Arguments get_use_local {GithubContext Octokit} env.
Arguments get_octokit {GithubContext Octokit} getOctokit env.
Arguments clear_cache {GithubContext Octokit}.

(* The team prefix and the platform answers used in the examples. *)
Definition team_prefix : string := "team:".

Definition example_members (org team_slug : string) : list (list string) :=
  if String.eqb team_slug "core" then [["dave"]; ["alice"; "erin"]]
  else if String.eqb team_slug "docs" then [["frank"]]
  else [].

Definition example_context : Context :=
  {| owner := "acme"; repo := "widgets"; pull_number := 7 |}.

(* --------------------------------------------------------------------- *)
(* Views used to state what the boundary functions return                 *)
(* --------------------------------------------------------------------- *)

(* the three keys of file_changes.total and file_changes.last *)
Definition known_status (file : FileEntry) : bool :=
  String.eqb (status file) "added" || String.eqb (status file) "removed"
  || String.eqb (status file) "modified".

(* the names of the files with a given status, in their order *)
Definition with_status (s : string) (files : list FileEntry) : list string :=
  map filename (filter (fun file => String.eqb (status file) s) files).

Definition by_status (files : list FileEntry) : ChangeSet :=
  {| added := with_status "added" files;
     removed := with_status "removed" files;
     modified := with_status "modified" files |}.

(* what pushing the files of more after those of changes gives *)
Definition append_changes (changes more : ChangeSet) : ChangeSet :=
  {| added := added changes ++ added more;
     removed := removed changes ++ removed more;
     modified := modified changes ++ modified more |}.

(* the logins of the reviews in a given state, in their order *)
Definition with_state (s : string) (reviews : list Review) : list string :=
  map login (filter (fun review => String.eqb (review_state review) s) reviews).

Section Stays.

Variable GITHUB_TEAM_PREFIX : string.
Variable listMembersInOrg : string -> string -> list (list string).

(* an individual that stays *)
Definition individual_stays (individuals_to_exclude : list string) (x : string) : bool :=
  negb (has_team_prefix GITHUB_TEAM_PREFIX x) && negb (includes individuals_to_exclude x).

(* a team that stays *)
Definition team_stays (org : string) (individuals_to_exclude : list string) (x : string)
    : bool :=
  has_team_prefix GITHUB_TEAM_PREFIX x
  && negb (has_excluded_individuals individuals_to_exclude
             (listMembersInOrg org (team_with_prefix_to_team_slug GITHUB_TEAM_PREFIX x))).

End Stays.

(* ===================================================================== *)
(* Properties                                                             *)
(* ===================================================================== *)

(* --------------------------------------------------------------------- *)
(* Arrays and sets                                                        *)
(* --------------------------------------------------------------------- *)

Lemma includes_In l x : includes l x = true <-> In x l.
Proof.
  unfold includes. rewrite existsb_exists. split.
  - intros [y [Hy Heq]]. apply String.eqb_eq in Heq. now subst.
  - intros H. exists x. split; [assumption | apply String.eqb_refl].
Qed.

Lemma includes_not_In l x : includes l x = false <-> ~ In x l.
Proof.
  rewrite <- includes_In. destruct (includes l x); split; intros; congruence.
Qed.

Lemma set_from_In seen l x :
  In x (set_from seen l) <-> In x l /\ ~ In x seen.
Proof.
  revert seen. induction l as [|y l IH]; intros seen; simpl.
  - tauto.
  - destruct (includes seen y) eqn:E.
    + apply includes_In in E. rewrite IH. split.
      * intros [H1 H2]. tauto.
      * intros [[->|H1] H2]; tauto.
    + apply includes_not_In in E. simpl. rewrite IH. simpl. split.
      * intros [->|[H1 H2]]; [tauto|]. split; [tauto|]. intros H. apply H2. now right.
      * intros [[->|H1] H2]; [now left|].
        destruct (string_dec y x) as [->|Hne]; [now left|].
        right. split; [assumption|]. intros [H|H]; [congruence | tauto].
Qed.

Lemma set_from_NoDup seen l : NoDup (set_from seen l).
Proof.
  revert seen. induction l as [|y l IH]; intros seen; simpl.
  - constructor.
  - destruct (includes seen y) eqn:E; [apply IH|].
    constructor; [|apply IH].
    rewrite set_from_In. intros [_ H]. apply H. now left.
Qed.

Lemma set_from_fresh seen l :
  NoDup l -> (forall x, In x l -> ~ In x seen) -> set_from seen l = l.
Proof.
  revert seen. induction l as [|y l IH]; intros seen Hnd Hfresh; simpl.
  - reflexivity.
  - inversion Hnd as [|? ? Hy Hl]; subst.
    assert (E : includes seen y = false).
    { apply includes_not_In. apply Hfresh. now left. }
    rewrite E. f_equal. apply IH; [assumption|].
    intros x Hx [<-|Hs]; [contradiction|].
    apply (Hfresh x); [now right | assumption].
Qed.

Lemma dedup_In l x : In x (dedup l) <-> In x l.
Proof. unfold dedup. rewrite set_from_In. simpl. tauto. Qed.

Lemma dedup_NoDup l : NoDup (dedup l).
Proof. apply set_from_NoDup. Qed.

Lemma dedup_id l : NoDup l -> dedup l = l.
Proof. intros H. apply set_from_fresh; [assumption | intros x _ []]. Qed.

Lemma dedup_idem l : dedup (dedup l) = dedup l.
Proof. apply dedup_id, dedup_NoDup. Qed.

Lemma filter_all {A} (f : A -> bool) l :
  (forall x, In x l -> f x = true) -> filter f l = l.
Proof.
  induction l as [|y l IH]; intros H; simpl; [reflexivity|].
  rewrite (H y (or_introl eq_refl)). f_equal. apply IH. intros x Hx. apply H. now right.
Qed.

(* --------------------------------------------------------------------- *)
(* The group resolver                                                     *)
(* --------------------------------------------------------------------- *)

Lemma replace_groups_NoDup reviewers config excludes :
  NoDup (replace_groups_with_individuals reviewers config excludes).
Proof. unfold replace_groups_with_individuals. apply NoDup_filter, dedup_NoDup. Qed.

Lemma replace_groups_excludes reviewers config excludes x :
  In x (replace_groups_with_individuals reviewers config excludes) -> ~ In x excludes.
Proof.
  unfold replace_groups_with_individuals. rewrite filter_In.
  intros [_ H]. apply includes_not_In. now destruct (includes excludes x).
Qed.

Lemma replace_groups_nil config excludes :
  replace_groups_with_individuals [] config excludes = [].
Proof. reflexivity. Qed.

Lemma replace_groups_no_excludes reviewers config :
  replace_groups_with_individuals reviewers config [] =
  dedup (flat_map (expand (groups_of config)) reviewers).
Proof. unfold replace_groups_with_individuals. now apply filter_all. Qed.

Lemma expand_group_free g reviewers :
  (forall r, In r reviewers -> get g r = None) ->
  flat_map (expand g) reviewers = reviewers.
Proof.
  induction reviewers as [|r l IH]; intros H; simpl; [reflexivity|].
  unfold expand at 1. rewrite (H r (or_introl eq_refl)). simpl. f_equal.
  apply IH. intros r' Hr'. apply H. now right.
Qed.

(* --------------------------------------------------------------------- *)
(* The file-rule matcher                                                  *)
(* --------------------------------------------------------------------- *)

(* Inside the callback the name reviewers denotes the rule's own array. *)
Lemma resolve_in_callback rule_reviewers acc :
  runStateT (resolve (callback_scope rule_reviewers) "reviewers") acc =
  inr (PolicyArray rule_reviewers, acc).
Proof. reflexivity. Qed.

Lemma resolve_in_function acc :
  runStateT (resolve function_scope "reviewers") acc = inr (Accumulator, acc).
Proof. reflexivity. Qed.

Lemma push_in_callback rule_reviewers k acc :
  runStateT (push_reviewers (callback_scope rule_reviewers) k) acc = inl TypeError.
Proof. reflexivity. Qed.

Lemma clear_in_callback rule_reviewers k acc :
  runStateT (clear_reviewers (callback_scope rule_reviewers) k) acc = inl TypeError.
Proof. reflexivity. Qed.

Section FileRuleFacts.

Variable minimatch : string -> string -> bool.

Lemma existsb_filter_false {A} (f g : A -> bool) l :
  existsb f l = false -> existsb f (filter g l) = false.
Proof.
  induction l as [|x l IH]; simpl; [reflexivity|].
  intros H. apply orb_false_iff in H as [Hx Hl].
  destruct (g x); simpl; [rewrite Hx|]; auto.
Qed.

Lemma file_rule_throws flag changed_files entry acc :
  rule_applies minimatch changed_files entry = true ->
  runStateT (file_rule minimatch flag changed_files entry) acc = inl TypeError.
Proof.
  destruct entry as [glob_pattern rule_reviewers].
  unfold rule_applies, last_changed_files, file_rule. simpl fst. intros H.
  rewrite H. destruct flag; reflexivity.
Qed.

Lemma file_rule_skips flag changed_files entry acc :
  rule_applies minimatch changed_files entry = false ->
  runStateT (file_rule minimatch flag changed_files entry) acc = inr (tt, acc).
Proof.
  destruct entry as [glob_pattern rule_reviewers].
  unfold rule_applies, last_changed_files, file_rule. simpl fst. intros H.
  rewrite (existsb_filter_false _ _ _ H). rewrite H.
  rewrite !existsb_app in H. rewrite existsb_app.
  apply orb_false_iff in H as [Ha H]. apply orb_false_iff in H as [Hr Hm].
  rewrite Ha, Hr, Hm. reflexivity.
Qed.

Lemma forEach_file_rules flag changed_files files acc :
  runStateT (forEach (file_rule minimatch flag changed_files) files) acc =
  if existsb (rule_applies minimatch changed_files) files then inl TypeError else inr (tt, acc).
Proof.
  induction files as [|entry files IH]; [reflexivity|].
  cbn [forEach existsb].
  destruct (rule_applies minimatch changed_files entry) eqn:E.
  - cbn. now rewrite (file_rule_throws _ _ _ _ E).
  - cbn. rewrite (file_rule_skips _ _ _ _ E). cbn. apply IH.
Qed.

Lemma process_no_buckets config excludes :
  process config excludes no_buckets = no_buckets.
Proof. reflexivity. Qed.

Lemma process_excludes config excludes acc k x :
  In x (bucket k (process config excludes acc)) -> ~ In x excludes.
Proof. destruct k; simpl; apply replace_groups_excludes. Qed.

Lemma process_NoDup config excludes acc k :
  NoDup (bucket k (process config excludes acc)).
Proof. destruct k; simpl; apply replace_groups_NoDup. Qed.

(* What the function does on every input. *)
Lemma identify_by_files_cases config changed_files excludes :
  identify_reviewers_by_changed_files minimatch config changed_files excludes =
  match cfg_files config with
  | None => inr EmptyArray
  | Some files =>
      if existsb (rule_applies minimatch changed_files) files then inl TypeError
      else inr (Classification no_buckets)
  end.
Proof.
  unfold identify_reviewers_by_changed_files.
  destruct (cfg_files config) as [files|]; [|reflexivity].
  rewrite forEach_file_rules.
  now destruct (existsb (rule_applies minimatch changed_files) files).
Qed.

(* Every bucket of a returned classification went through the resolver. *)
Lemma identify_by_files_processed config changed_files excludes b :
  identify_reviewers_by_changed_files minimatch config changed_files excludes =
    inr (Classification b) ->
  exists acc, b = process config excludes acc.
Proof.
  unfold identify_reviewers_by_changed_files.
  destruct (cfg_files config) as [files|]; [|discriminate].
  destruct (runStateT _ _) as [e|[u acc]]; [discriminate|].
  intros H. injection H as <-. now exists acc.
Qed.

Lemma some_rule_applies changed_files files glob_pattern rule_reviewers changed_file :
  In (glob_pattern, rule_reviewers) files ->
  In changed_file (last_changed_files changed_files) ->
  minimatch changed_file glob_pattern = true ->
  existsb (rule_applies minimatch changed_files) files = true.
Proof.
  intros Hrule Hfile Hm. apply existsb_exists.
  exists (glob_pattern, rule_reviewers). split; [assumption|].
  unfold rule_applies. apply existsb_exists. now exists changed_file.
Qed.

Lemma no_rule_applies changed_files files :
  (forall glob_pattern rule_reviewers changed_file,
     In (glob_pattern, rule_reviewers) files ->
     In changed_file (last_changed_files changed_files) ->
     minimatch changed_file glob_pattern = false) ->
  existsb (rule_applies minimatch changed_files) files = false.
Proof.
  intros H. destruct (existsb _ files) eqn:E; [|reflexivity].
  apply existsb_exists in E as [[glob_pattern rule_reviewers] [Hrule Happ]].
  apply existsb_exists in Happ as [changed_file [Hfile Hm]]. simpl in Hm.
  now rewrite (H _ _ _ Hrule Hfile) in Hm.
Qed.

End FileRuleFacts.

(* --------------------------------------------------------------------- *)
(* Substrings                                                             *)
(* --------------------------------------------------------------------- *)

Lemma prefix_append keyword s :
  String.prefix keyword s = true <-> exists after, s = (keyword ++ after)%string.
Proof.
  revert s. induction keyword as [|c keyword IH]; intros s.
  - split; [intros _; now exists s | intros _; now destruct s].
  - destruct s as [|d s]; simpl;
      [split; [discriminate | intros [after H]; discriminate]|].
    destruct (ascii_dec c d) as [->|Hne].
    + rewrite IH. split; intros [after H]; exists after; congruence.
    + split; [discriminate | intros [after H]; congruence].
Qed.

Lemma str_includes_occurs s keyword :
  str_includes s keyword = true <-> occurs_in keyword s.
Proof.
  unfold occurs_in. induction s as [|c s IH]; cbn [str_includes].
  - destruct (String.prefix keyword "") eqn:E.
    + split; [intros _|reflexivity].
      apply prefix_append in E as [after H]. now exists "", after.
    + split; [discriminate|]. intros [before [after H]].
      destruct before; [|discriminate]. simpl in H.
      assert (P : String.prefix keyword "" = true) by (apply prefix_append; eauto).
      congruence.
  - destruct (String.prefix keyword (String c s)) eqn:E.
    + split; [intros _|reflexivity].
      apply prefix_append in E as [after H]. now exists "", after.
    + rewrite IH. split.
      * intros [before [after H]]. exists (String c before), after. simpl. congruence.
      * intros [before [after H]]. destruct before as [|d before].
        -- simpl in H.
           assert (P : String.prefix keyword (String c s) = true)
             by (apply prefix_append; eauto).
           congruence.
        -- simpl in H. injection H as _ H. eauto.
Qed.

(* --------------------------------------------------------------------- *)
(* The sampler                                                            *)
(* --------------------------------------------------------------------- *)

Lemma remove_at_length {A} j (l : list A) :
  j < length l -> length (remove_at j l) = length l - 1.
Proof.
  revert j. induction l as [|x l IH]; intros j H; [simpl in H; lia|].
  destruct j as [|j]; cbn [remove_at length] in *; [lia|].
  rewrite IH; lia.
Qed.

Lemma remove_at_In {A} j (l : list A) x : In x (remove_at j l) -> In x l.
Proof.
  revert j. induction l as [|y l IH]; intros j; simpl; [tauto|].
  destruct j; [tauto|]. simpl. intros [H|H]; [tauto|]. right. eapply IH, H.
Qed.

Section SamplerFacts.

Variable draw : nat -> nat.

Lemma sample_from_length i pool n :
  length (sample_from draw i pool n) = Nat.min n (length pool).
Proof.
  revert i pool. induction n as [|n IH]; intros i pool; [reflexivity|].
  destruct pool as [|x pool]; [reflexivity|].
  cbn [sample_from]. cbn [length]. rewrite IH.
  rewrite remove_at_length.
  - cbn [length]. lia.
  - apply Nat.mod_upper_bound. cbn [length]. lia.
Qed.

Lemma sample_from_In i pool n x :
  In x (sample_from draw i pool n) -> In x pool.
Proof.
  revert i pool. induction n as [|n IH]; intros i pool; [intros []|].
  destruct pool as [|y pool]; [intros []|].
  cbn [sample_from]. intros [H|H].
  - rewrite <- H. apply nth_In. apply Nat.mod_upper_bound. cbn [length]. lia.
  - eapply remove_at_In, IH, H.
Qed.

End SamplerFacts.

(* --------------------------------------------------------------------- *)
(* Co-membership, author rules and defaults                               *)
(* --------------------------------------------------------------------- *)

Lemma filter_drops (author : ident) l :
  ~ In author (filter (fun x => negb (String.eqb x author)) l).
Proof.
  rewrite filter_In. intros [_ H]. now rewrite String.eqb_refl in H.
Qed.

Lemma fetch_other_group_members_NoDup author config :
  NoDup (fetch_other_group_members author config).
Proof.
  unfold fetch_other_group_members.
  destruct (negb _); [constructor | apply dedup_NoDup].
Qed.

Lemma fetch_other_group_members_disabled author config :
  option_or enable_group_assignment false config = false ->
  fetch_other_group_members author config = [].
Proof. unfold fetch_other_group_members. now intros ->. Qed.

Lemma fetch_default_reviewers_NoDup config excludes :
  NoDup (fetch_default_reviewers config excludes).
Proof.
  unfold fetch_default_reviewers.
  destruct (cfg_reviewers config) as [r|]; [|constructor].
  destruct (defaults r); [|constructor].
  apply NoDup_filter, dedup_NoDup.
Qed.

Lemma fetch_default_reviewers_excludes config excludes x :
  In x (fetch_default_reviewers config excludes) -> ~ In x excludes.
Proof.
  unfold fetch_default_reviewers.
  destruct (cfg_reviewers config) as [r|]; [|intros []].
  destruct (defaults r); [|intros []].
  rewrite filter_In. intros [_ H]. apply includes_not_In.
  now destruct (includes excludes x).
Qed.

(* ===================================================================== *)
(* The claims                                                             *)
(* ===================================================================== *)

(** C1: the file-rule matcher is claimed to return on every input, also
    when a glob rule matches a changed file.  On the code, as soon as one
    rule's pattern matches one file of the last change set the call raises
    a TypeError: inside the callback the name reviewers is the rule's own
    array, whose property matched is undefined. *)
Theorem identify_by_files_raises_on_match
    minimatch config changed_files excludes files glob_pattern rule_reviewers changed_file :
  cfg_files config = Some files ->
  In (glob_pattern, rule_reviewers) files ->
  In changed_file (last_changed_files changed_files) ->
  minimatch changed_file glob_pattern = true ->
  identify_reviewers_by_changed_files minimatch config changed_files excludes
    = inl TypeError.
Proof.
  intros Hfiles Hrule Hfile Hm.
  rewrite identify_by_files_cases, Hfiles.
  now rewrite (some_rule_applies _ _ _ _ _ _ Hrule Hfile Hm).
Qed.

Lemma identify_by_files_raises_on_match_witness :
  identify_reviewers_by_changed_files simple_glob revert_config revert_changes ["carol"]
    = inl TypeError.
Proof.
  apply (identify_by_files_raises_on_match simple_glob revert_config revert_changes
           ["carol"] [("*.txt", ["bob"])] "*.txt" ["bob"] "a.txt").
  - reflexivity.
  - simpl. now left.
  - simpl. now left.
  - reflexivity.
Defined.

(** C2: the revert example (total empty, a.txt added by the last commit,
    rule "*.txt" -> ["bob"]) is claimed to return a classification with bob
    in could_be_removed and in must_be_added.  With any matcher that accepts
    a.txt for *.txt the code returns no classification: it raises a
    TypeError. *)
Theorem revert_example_raises minimatch :
  minimatch "a.txt" "*.txt" = true ->
  identify_reviewers_by_changed_files minimatch revert_config revert_changes []
    = inl TypeError.
Proof.
  intros Hm. rewrite identify_by_files_cases. cbn.
  now rewrite Hm.
Qed.

Lemma revert_example_raises_witness :
  identify_reviewers_by_changed_files simple_glob revert_config revert_changes []
    = inl TypeError.
Proof. apply (revert_example_raises simple_glob). reflexivity. Defined.

(** C3: with last_files_match_only enabled, a matching rule is claimed to
    replace the contents of matched.  On the code the clearing statement
    reviewers.matched.length = 0 is evaluated on the rule's own array and
    raises a TypeError, and so does the whole call. *)
Theorem last_files_match_only_raises
    minimatch config changed_files excludes files entry :
  option_or last_files_match_only false config = true ->
  cfg_files config = Some files ->
  In entry files ->
  rule_applies minimatch changed_files entry = true ->
  (forall acc,
     runStateT (clear_reviewers (callback_scope (snd entry)) k_matched) acc
       = inl TypeError) /\
  (forall acc,
     runStateT (file_rule minimatch true changed_files entry) acc = inl TypeError) /\
  identify_reviewers_by_changed_files minimatch config changed_files excludes
    = inl TypeError.
Proof.
  intros _ Hfiles Hentry Happ. split; [reflexivity|]. split.
  - intros acc. now apply file_rule_throws.
  - rewrite identify_by_files_cases, Hfiles.
    assert (E : existsb (rule_applies minimatch changed_files) files = true)
      by (apply existsb_exists; eauto).
    now rewrite E.
Qed.

Lemma last_files_match_only_raises_witness :
  identify_reviewers_by_changed_files simple_glob override_config revert_changes []
    = inl TypeError.
Proof.
  apply (last_files_match_only_raises simple_glob override_config revert_changes []
           [("*", ["alice"]); ("*.txt", ["bob"])] ("*.txt", ["bob"])).
  - reflexivity.
  - reflexivity.
  - simpl. right. now left.
  - reflexivity.
Defined.

(** C4: every returned list is claimed to be free of repetitions, also the
    author-rule matcher's when the author matches several rule keys with
    overlapping reviewer lists.  With alice a rule key and a member of the
    group team, another rule key, and bob listed by both rules, the code
    returns bob twice: each rule's list is deduplicated on its own, their
    concatenation is not. *)
Theorem author_rules_overlap_repeats :
  identify_reviewers_by_author overlap_config "alice" = ["bob"; "bob"] /\
  ~ NoDup (identify_reviewers_by_author overlap_config "alice").
Proof.
  split; [reflexivity|].
  change (identify_reviewers_by_author overlap_config "alice") with ["bob"; "bob"].
  intros H. inversion H as [|? ? Hin _]. apply Hin. now left.
Qed.

(** C5: exclusion invariant.  For every exclusion set E, no identifier of E
    occurs in a bucket of a classification returned by
    identify_reviewers_by_changed_files (the bare empty array it returns
    without a files key has no element at all; each bucket is the output of
    the resolver's exclusion stage, applied to whatever was accumulated), in
    the list returned by fetch_default_reviewers, or in the output of
    replace_groups_with_individuals. *)
Theorem exclusion_invariant minimatch config changed_files reviewers E :
  (forall b,
     identify_reviewers_by_changed_files minimatch config changed_files E
       = inr (Classification b) ->
     forall k, Forall (fun x => ~ In x E) (bucket k b)) /\
  (forall acc k x, In x (bucket k (process config E acc)) -> ~ In x E) /\
  (forall x, In x (fetch_default_reviewers config E) -> ~ In x E) /\
  (forall x, In x (replace_groups_with_individuals reviewers config E) -> ~ In x E).
Proof.
  repeat split.
  - intros b Hres k. apply Forall_forall. intros x.
    destruct (identify_by_files_processed _ _ _ _ _ Hres) as [acc ->].
    apply process_excludes.
  - intros acc k x. apply process_excludes.
  - intros x. apply fetch_default_reviewers_excludes.
  - intros x. apply replace_groups_excludes.
Qed.

Lemma exclusion_invariant_witness :
  Forall (fun x => ~ In x ["alice"; "bob"]) (matched no_buckets) /\
  ~ In "carol" ["alice"; "bob"] /\
  ~ In "bob" ["alice"].
Proof.
  pose proof (exclusion_invariant simple_glob empty_files_config revert_changes
                [] ["alice"; "bob"]) as [Hfiles _].
  pose proof (exclusion_invariant simple_glob overlap_config revert_changes
                ["team"; "bob"] ["alice"; "bob"]) as [_ [Hprocess [Hdefaults _]]].
  pose proof (exclusion_invariant simple_glob overlap_config revert_changes
                ["team"; "bob"] ["alice"]) as [_ [_ [_ Hresolver]]].
  split; [|split].
  - apply (Hfiles no_buckets eq_refl k_matched).
  - apply (Hprocess
             {| matched := ["team"; "bob"]; must_be_added := [];
                should_be_added := []; could_be_removed := [] |}
             k_matched "carol").
    simpl. now left.
  - apply (Hresolver "bob"). simpl. right. now left.
Defined.

(** C6: self-exclusion.  For every author and policy, the author is not in
    the output of identify_reviewers_by_author and not in the output of
    fetch_other_group_members, whatever the groups and rules contain. *)
Theorem self_exclusion config author :
  ~ In author (identify_reviewers_by_author config author) /\
  ~ In author (fetch_other_group_members author config).
Proof.
  split.
  - unfold identify_reviewers_by_author.
    destruct (cfg_reviewers config) as [r|]; [|intros []].
    destruct (per_author r); [|intros []].
    apply filter_drops.
  - unfold fetch_other_group_members.
    destruct (negb _); [intros []|].
    rewrite dedup_In. apply filter_drops.
Qed.

(** C7: should_request_review is false when ignore_draft (default true)
    holds and the pull request is a draft; otherwise it is true exactly when
    no ignored keyword (default "DO NOT REVIEW") occurs in the title as a
    literal substring.  With empty options: ("WIP", draft) is false,
    ("Add feature DO NOT REVIEW yet", not draft) is false and
    ("Add feature", not draft) is true. *)
Theorem should_request_review_spec title is_draft config :
  (option_or ignore_draft true config = true -> is_draft = true ->
   should_request_review title is_draft config = false) /\
  (option_or ignore_draft true config && is_draft = false ->
   (should_request_review title is_draft config = true <->
    forall keyword,
      In keyword (option_or ignored_keywords ["DO NOT REVIEW"] config) ->
      ~ occurs_in keyword title)) /\
  option_or ignore_draft true (with_options no_options) = true /\
  option_or ignored_keywords ["DO NOT REVIEW"] (with_options no_options)
    = ["DO NOT REVIEW"] /\
  should_request_review "WIP" true (with_options no_options) = false /\
  should_request_review "Add feature DO NOT REVIEW yet" false (with_options no_options)
    = false /\
  should_request_review "Add feature" false (with_options no_options) = true.
Proof.
  split; [|split; [|repeat split]].
  - intros Hopt ->. unfold should_request_review. now rewrite Hopt.
  - intros Hgate. unfold should_request_review. rewrite Hgate.
    rewrite negb_true_iff. split.
    + intros Hnone keyword Hin Hocc.
      apply str_includes_occurs in Hocc.
      assert (E : existsb (fun keyword => str_includes title keyword)
                    (option_or ignored_keywords ["DO NOT REVIEW"] config) = true)
        by (apply existsb_exists; eauto).
      congruence.
    + intros Hnone.
      destruct (existsb _ _) eqn:E; [|reflexivity].
      apply existsb_exists in E as [keyword [Hin Hinc]].
      apply str_includes_occurs in Hinc. now destruct (Hnone keyword Hin).
Qed.

Lemma should_request_review_spec_witness :
  should_request_review "WIP" true (with_options no_options) = false /\
  (should_request_review "Add feature" false (with_options no_options) = true <->
   forall keyword, In keyword ["DO NOT REVIEW"] -> ~ occurs_in keyword "Add feature").
Proof.
  split.
  - apply (proj1 (should_request_review_spec "WIP" true (with_options no_options)));
      reflexivity.
  - apply (proj1 (proj2 (should_request_review_spec "Add feature" false
                           (with_options no_options)))).
    reflexivity.
Defined.

(** C8: randomly_pick_reviewers returns its input unchanged when
    number_of_reviewers is absent; when number_of_reviewers = k is present
    and k <= N, the length of the input, the output has length k and each of
    its elements is an element of the input; when k > N the output has
    length N. *)
Theorem randomly_pick_reviewers_spec draw reviewers config :
  (number_of_reviewers_of config = None ->
   randomly_pick_reviewers draw reviewers config = reviewers) /\
  (forall k, number_of_reviewers_of config = Some k ->
     (k <= length reviewers ->
      length (randomly_pick_reviewers draw reviewers config) = k /\
      forall x, In x (randomly_pick_reviewers draw reviewers config) -> In x reviewers) /\
     (length reviewers < k ->
      length (randomly_pick_reviewers draw reviewers config) = length reviewers)).
Proof.
  unfold randomly_pick_reviewers, sample_size. split.
  - now intros ->.
  - intros k ->. split.
    + intros Hk. split.
      * rewrite sample_from_length. lia.
      * intros x. apply sample_from_In.
    + intros Hk. rewrite sample_from_length. lia.
Qed.

Lemma randomly_pick_reviewers_spec_witness :
  randomly_pick_reviewers (fun i => 7 * i + 3) ["alice"; "bob"; "carol"] empty_config
    = ["alice"; "bob"; "carol"] /\
  length (randomly_pick_reviewers (fun i => 7 * i + 3) ["alice"; "bob"; "carol"]
            overlap_config) = 2 /\
  length (randomly_pick_reviewers (fun i => 7 * i + 3) ["alice"] overlap_config) = 1.
Proof.
  split; [|split].
  - apply (proj1 (randomly_pick_reviewers_spec (fun i => 7 * i + 3)
                    ["alice"; "bob"; "carol"] empty_config)).
    reflexivity.
  - apply (proj1 (proj2 (randomly_pick_reviewers_spec (fun i => 7 * i + 3)
                           ["alice"; "bob"; "carol"] overlap_config) 2 eq_refl)).
    simpl. lia.
  - apply (proj2 (proj2 (randomly_pick_reviewers_spec (fun i => 7 * i + 3)
                           ["alice"] overlap_config) 2 eq_refl)).
    simpl. lia.
Defined.

(** C9: the group resolver is idempotent on expanded input.  For a reviewer
    list that contains no group name, and an empty exclusion set, running
    replace_groups_with_individuals on its own output returns that output;
    and on a list that also has no repetition the resolver is the
    identity. *)
Theorem replace_groups_idempotent reviewers config :
  (forall r, In r reviewers -> get (groups_of config) r = None) ->
  replace_groups_with_individuals
    (replace_groups_with_individuals reviewers config []) config []
    = replace_groups_with_individuals reviewers config [] /\
  (NoDup reviewers -> replace_groups_with_individuals reviewers config [] = reviewers).
Proof.
  intros Hfree.
  rewrite !replace_groups_no_excludes.
  rewrite (expand_group_free _ _ Hfree).
  split.
  - rewrite expand_group_free; [apply dedup_idem|].
    intros r Hr. apply Hfree. now apply dedup_In.
  - apply dedup_id.
Qed.

Lemma replace_groups_idempotent_witness :
  replace_groups_with_individuals
    (replace_groups_with_individuals ["bob"; "dave"; "bob"] overlap_config [])
    overlap_config []
  = replace_groups_with_individuals ["bob"; "dave"; "bob"] overlap_config [].
Proof.
  apply (replace_groups_idempotent ["bob"; "dave"; "bob"] overlap_config).
  intros r [<-|[<-|[<-|[]]]]; reflexivity.
Defined.

(** C10: the return shape of identify_reviewers_by_changed_files is claimed
    to be the empty flat array without a files key and the object with the
    four buckets matched, must_be_added, should_be_added and could_be_removed
    whenever files is present, even empty.  On the code the first holds; with
    a files key none of whose patterns matches a file of the last change set
    the object is returned, all four buckets empty, and the two shapes
    differ; with a files key and a matching rule no object is returned: the
    call raises a TypeError. *)
Theorem identify_by_files_return_shape minimatch config changed_files excludes :
  (cfg_files config = None ->
   identify_reviewers_by_changed_files minimatch config changed_files excludes
     = inr EmptyArray) /\
  (forall files,
     cfg_files config = Some files ->
     (forall glob_pattern rule_reviewers changed_file,
        In (glob_pattern, rule_reviewers) files ->
        In changed_file (last_changed_files changed_files) ->
        minimatch changed_file glob_pattern = false) ->
     identify_reviewers_by_changed_files minimatch config changed_files excludes
       = inr (Classification no_buckets)) /\
  (forall b, EmptyArray <> Classification b) /\
  (forall files entry,
     cfg_files config = Some files ->
     In entry files ->
     rule_applies minimatch changed_files entry = true ->
     forall b,
       identify_reviewers_by_changed_files minimatch config changed_files excludes
         <> inr (Classification b)).
Proof.
  split; [|split; [|split]].
  - intros H. rewrite identify_by_files_cases. now rewrite H.
  - intros files Hfiles Hnone. rewrite identify_by_files_cases, Hfiles.
    now rewrite (no_rule_applies _ _ _ Hnone).
  - discriminate.
  - intros files entry Hfiles Hentry Happ b.
    rewrite identify_by_files_cases, Hfiles.
    assert (E : existsb (rule_applies minimatch changed_files) files = true)
      by (apply existsb_exists; eauto).
    rewrite E. discriminate.
Qed.

Lemma identify_by_files_return_shape_witness :
  identify_reviewers_by_changed_files simple_glob empty_config revert_changes []
    = inr EmptyArray /\
  identify_reviewers_by_changed_files simple_glob empty_files_config revert_changes []
    = inr (Classification no_buckets) /\
  (forall b,
     identify_reviewers_by_changed_files simple_glob revert_config revert_changes []
       <> inr (Classification b)).
Proof.
  split; [|split].
  - apply (proj1 (identify_by_files_return_shape simple_glob empty_config
                    revert_changes [])).
    reflexivity.
  - apply (proj1 (proj2 (identify_by_files_return_shape simple_glob empty_files_config
                           revert_changes [])) []).
    + reflexivity.
    + intros glob_pattern rule_reviewers changed_file [].
  - apply (proj2 (proj2 (proj2 (identify_by_files_return_shape simple_glob revert_config
                                  revert_changes [])))
             [("*.txt", ["bob"])] ("*.txt", ["bob"])).
    + reflexivity.
    + simpl. now left.
    + reflexivity.
Defined.

(* ===================================================================== *)
(* Further properties of the resolution engine                            *)
(* ===================================================================== *)

Lemma expand_cases g r x :
  In x (expand g r) <->
  (exists members, get g r = Some members /\ In x members) \/ (get g r = None /\ x = r).
Proof.
  unfold expand. destruct (get g r) as [members|]; simpl; split.
  - intros H. left. eauto.
  - intros [[m [Hm Hx]]|[Hn _]]; congruence.
  - intros [<-|[]]. now right.
  - intros [[m [Hm _]]|[_ ->]]; [discriminate | now left].
Qed.

Lemma keep_truthy_In {A} (f : A -> option string) l name :
  In name (keep_truthy (map f l)) <->
  name <> "" /\ exists a, In a l /\ f a = Some name.
Proof.
  induction l as [|a l IH]; simpl.
  - split; [intros [] | intros [_ [a [[] _]]]].
  - destruct (f a) as [s|] eqn:E.
    + destruct (String.eqb_spec s "") as [->|Hne].
      * rewrite IH. split.
        -- intros [Hn [b [Hb Hf]]]. eauto 6.
        -- intros [Hn [b [[<-|Hb] Hf]]]; [congruence | eauto].
      * simpl. rewrite IH. split.
        -- intros [<-|[Hn [b [Hb Hf]]]]; [eauto 6 | eauto 6].
        -- intros [Hn [b [[<-|Hb] Hf]]]; [left; congruence | right; eauto].
    + rewrite IH. split.
      * intros [Hn [b [Hb Hf]]]. eauto 6.
      * intros [Hn [b [[<-|Hb] Hf]]]; [congruence | eauto].
Qed.

(** X1: what the group resolver returns.  An identifier is in the output of
    replace_groups_with_individuals exactly when it is not excluded and it
    is a member of a listed group or is itself a listed identifier that
    names no group.  Expansion is one level deep: the members of a group are
    returned as they are, also when one of them names a group. *)
Theorem replace_groups_membership reviewers config excludes x :
  In x (replace_groups_with_individuals reviewers config excludes) <->
  ~ In x excludes /\
  exists reviewer,
    In reviewer reviewers /\
    ((exists members, get (groups_of config) reviewer = Some members /\ In x members) \/
     (get (groups_of config) reviewer = None /\ x = reviewer)).
Proof.
  unfold replace_groups_with_individuals.
  rewrite filter_In, dedup_In, in_flat_map, negb_true_iff, includes_not_In.
  split.
  - intros [[r [Hr Hx]] Hex]. split; [assumption|].
    exists r. split; [assumption|]. now apply expand_cases.
  - intros [Hex [r [Hr Hx]]]. split; [|assumption].
    exists r. split; [assumption|]. now apply expand_cases.
Qed.

(** X2: the lists that are built through a Set hold no identifier twice:
    the output of replace_groups_with_individuals, each bucket produced by
    the last stage of identify_reviewers_by_changed_files, the output of
    fetch_other_group_members and the output of fetch_default_reviewers. *)
Theorem set_built_lists_have_no_repetition config reviewers excludes author acc k :
  NoDup (replace_groups_with_individuals reviewers config excludes) /\
  NoDup (bucket k (process config excludes acc)) /\
  NoDup (fetch_other_group_members author config) /\
  NoDup (fetch_default_reviewers config excludes).
Proof.
  repeat split.
  - apply replace_groups_NoDup.
  - apply process_NoDup.
  - apply fetch_other_group_members_NoDup.
  - apply fetch_default_reviewers_NoDup.
Qed.

(** X3: fetch_default_reviewers is the group resolver applied to the
    defaults with the caller's exclusions: resolving without exclusions,
    deduplicating once more and filtering afterwards gives the same list in
    the same order. *)
Theorem fetch_default_reviewers_is_resolver config r default_reviewers excludes :
  cfg_reviewers config = Some r ->
  defaults r = Some default_reviewers ->
  fetch_default_reviewers config excludes =
  replace_groups_with_individuals default_reviewers config excludes.
Proof.
  intros Hr Hd. unfold fetch_default_reviewers. rewrite Hr, Hd.
  rewrite replace_groups_no_excludes, dedup_idem. reflexivity.
Qed.

Lemma fetch_default_reviewers_is_resolver_witness :
  fetch_default_reviewers overlap_config ["alice"] =
  replace_groups_with_individuals ["team"; "bob"; "carol"] overlap_config ["alice"].
Proof.
  apply (fetch_default_reviewers_is_resolver overlap_config
           {| defaults := Some ["team"; "bob"; "carol"];
              groups := Some [("team", ["alice"; "carol"])];
              per_author := Some [("alice", ["bob"]); ("team", ["bob"; "alice"])] |});
    reflexivity.
Defined.

(** X4: what fetch_other_group_members returns.  An identifier is in the
    output exactly when group assignment is enabled, the identifier is not
    the author, and it is a member of a group whose own member list names
    the author and whose name is not the empty string (an empty group name
    is falsy and is filtered out with the groups the author is not in). *)
Theorem fetch_other_group_members_membership author config x :
  In x (fetch_other_group_members author config) <->
  option_or enable_group_assignment false config = true /\
  x <> author /\
  exists group_name members,
    In (group_name, members) (groups_of config) /\
    group_name <> "" /\
    In author members /\
    exists listed, get (groups_of config) group_name = Some listed /\ In x listed.
Proof.
  unfold fetch_other_group_members.
  destruct (option_or enable_group_assignment false config); simpl.
  2: { split; [intros [] | intros [H _]; discriminate]. }
  rewrite dedup_In, filter_In, in_flat_map, negb_true_iff, String.eqb_neq.
  split.
  - intros [[name [Hname Hx]] Hne]. split; [reflexivity|]. split; [assumption|].
    apply keep_truthy_In in Hname as [Hnonempty [[n members] [Hin Hsome]]].
    destruct (includes members author) eqn:E; [|discriminate].
    injection Hsome as ->. apply includes_In in E.
    exists name, members. repeat split; try assumption.
    destruct (get (groups_of config) name) as [listed|]; [eauto | destruct Hx].
  - intros [_ [Hne [name [members [Hin [Hnonempty [Hauthor [listed [Hget Hx]]]]]]]]].
    split; [|assumption]. exists name. split.
    + apply keep_truthy_In. split; [assumption|].
      exists (name, members). split; [assumption|].
      apply includes_In in Hauthor. now rewrite Hauthor.
    + now rewrite Hget.
Qed.

(** X5: what identify_reviewers_by_author returns when per_author is set.
    An identifier is in the output exactly when it is not the author and it
    is in the resolved reviewer list of a rule whose key is the author, or
    is a group with the author among its members. *)
Theorem identify_reviewers_by_author_membership config r rules author x :
  cfg_reviewers config = Some r ->
  per_author r = Some rules ->
  (In x (identify_reviewers_by_author config author) <->
   x <> author /\
   exists key,
     In key (keys rules) /\
     (key = author \/
      exists members, get (groups_of config) key = Some members /\ In author members) /\
     In x (replace_groups_with_individuals
             (match get rules key with Some l => l | None => [] end) config [])).
Proof.
  intros Hr Hp. unfold identify_reviewers_by_author. rewrite Hr, Hp.
  rewrite filter_In, in_flat_map, negb_true_iff, String.eqb_neq.
  assert (Hkey : forall key,
    In key (filter (fun a =>
        if String.eqb a author then true
        else if includes (replace_groups_with_individuals [a] config []) author
             then true else false) (keys rules)) <->
    In key (keys rules) /\
    (key = author \/
     exists members, get (groups_of config) key = Some members /\ In author members)).
  { intros key. rewrite filter_In.
    destruct (String.eqb_spec key author) as [->|Hne].
    - split; [intros [H _]; split; [assumption | now left] | intros [H _]; now split].
    - destruct (includes _ author) eqn:E.
      + apply includes_In, replace_groups_membership in E
          as [_ [k [[<-|[]] [Hm|[_ Heq]]]]]; [|congruence].
        split; [intros [H _]; split; [assumption | now right] | intros [H _]; now split].
      + apply includes_not_In in E. split; [intros [_ H]; discriminate|].
        intros [Hk [Heq|[members [Hget Hin]]]]; [congruence|].
        exfalso. apply E, replace_groups_membership. split; [intros []|].
        exists key. split; [now left|]. left. eauto. }
  split.
  - intros [[key [Hk Hx]] Hne]. split; [assumption|].
    exists key. apply Hkey in Hk as [Hk Hm]. now repeat split.
  - intros [Hne [key [Hk [Hm Hx]]]]. split; [|assumption].
    exists key. split; [|assumption]. apply Hkey. now split.
Qed.

Lemma identify_reviewers_by_author_membership_witness :
  In "bob" (identify_reviewers_by_author overlap_config "alice") <->
  "bob" <> "alice" /\
  exists key,
    In key ["alice"; "team"] /\
    (key = "alice" \/
     exists members, get (groups_of overlap_config) key = Some members /\ In "alice" members) /\
    In "bob" (replace_groups_with_individuals
                (match get [("alice", ["bob"]); ("team", ["bob"; "alice"])] key with
                 | Some l => l
                 | None => []
                 end) overlap_config []).
Proof.
  apply (identify_reviewers_by_author_membership overlap_config
           {| defaults := Some ["team"; "bob"; "carol"];
              groups := Some [("team", ["alice"; "carol"])];
              per_author := Some [("alice", ["bob"]); ("team", ["bob"; "alice"])] |}
           [("alice", ["bob"]); ("team", ["bob"; "alice"])] "alice" "bob");
    reflexivity.
Defined.

Lemma str_includes_empty s : str_includes s "" = true.
Proof. destruct s; reflexivity. Qed.

(** X6: an empty string among the ignored keywords suppresses every
    request: each title includes the empty string, so should_request_review
    is false for every title, draft or not. *)
Theorem empty_keyword_suppresses_all title is_draft config :
  In "" (option_or ignored_keywords ["DO NOT REVIEW"] config) ->
  should_request_review title is_draft config = false.
Proof.
  intros Hin. unfold should_request_review.
  destruct (option_or ignore_draft true config && is_draft); [reflexivity|].
  apply negb_false_iff, existsb_exists.
  exists "". split; [assumption | apply str_includes_empty].
Qed.

Lemma empty_keyword_suppresses_all_witness :
  should_request_review "Add feature" false
    (with_options {| enable_group_assignment := None; last_files_match_only := None;
                     ignore_draft := Some false; ignored_keywords := Some ["WIP"; ""];
                     number_of_reviewers := None |}) = false.
Proof.
  apply empty_keyword_suppresses_all. simpl. right. now left.
Defined.

(** X7: ignored keywords only ever suppress.  If two policies agree on
    ignore_draft and every keyword of the first is a keyword of the second,
    then a request that the second lets through is let through by the
    first. *)
Theorem fewer_keywords_request_more title is_draft config config' :
  option_or ignore_draft true config = option_or ignore_draft true config' ->
  (forall keyword,
     In keyword (option_or ignored_keywords ["DO NOT REVIEW"] config) ->
     In keyword (option_or ignored_keywords ["DO NOT REVIEW"] config')) ->
  should_request_review title is_draft config' = true ->
  should_request_review title is_draft config = true.
Proof.
  intros Hdraft Hsub. unfold should_request_review. rewrite Hdraft.
  destruct (option_or ignore_draft true config' && is_draft); [discriminate|].
  rewrite !negb_true_iff. intros Hnone.
  destruct (existsb _ (option_or ignored_keywords _ config)) eqn:E; [|reflexivity].
  apply existsb_exists in E as [keyword [Hin Hinc]].
  assert (E' : existsb (fun keyword => str_includes title keyword)
                 (option_or ignored_keywords ["DO NOT REVIEW"] config') = true)
    by (apply existsb_exists; eauto).
  congruence.
Qed.

Lemma fewer_keywords_request_more_witness :
  should_request_review "Add feature"  false
    (with_options {| enable_group_assignment := None; last_files_match_only := None;
                     ignore_draft := None; ignored_keywords := Some ["WIP"];
                     number_of_reviewers := None |}) = true.
Proof.
  apply (fewer_keywords_request_more "Add feature" false _
           (with_options {| enable_group_assignment := None; last_files_match_only := None;
                            ignore_draft := None;
                            ignored_keywords := Some ["DO NOT MERGE"; "WIP"];
                            number_of_reviewers := None |})).
  - reflexivity.
  - simpl. intros keyword [<-|[]]. right. now left.
  - reflexivity.
Defined.

(** X8: identify_reviewers_by_changed_files never names a reviewer: when it
    returns the object with the four buckets, all four are empty, whatever
    the rules, the groups and the change sets are. *)
Theorem identify_by_files_names_nobody minimatch config changed_files excludes b :
  identify_reviewers_by_changed_files minimatch config changed_files excludes
    = inr (Classification b) ->
  b = no_buckets.
Proof.
  rewrite identify_by_files_cases.
  destruct (cfg_files config) as [files|]; [|discriminate].
  destruct (existsb _ files); [discriminate|].
  intros H. now injection H.
Qed.

Lemma identify_by_files_names_nobody_witness :
  {| matched := []; must_be_added := []; should_be_added := []; could_be_removed := [] |}
  = no_buckets.
Proof.
  apply (identify_by_files_names_nobody simple_glob
           {| cfg_reviewers := None; cfg_files := Some [("*.js", ["bob"])];
              cfg_options := None |}
           revert_changes ["carol"]).
  reflexivity.
Defined.

(** X9: the outcome of identify_reviewers_by_changed_files depends on the
    files rules and on the last change set alone: the whole-diff change set,
    the exclusions, the groups and the options (last_files_match_only
    included) never change it. *)
Theorem identify_by_files_reads_rules_and_last
    minimatch config config' changed_files changed_files' excludes excludes' :
  cfg_files config = cfg_files config' ->
  cf_last changed_files = cf_last changed_files' ->
  identify_reviewers_by_changed_files minimatch config changed_files excludes =
  identify_reviewers_by_changed_files minimatch config' changed_files' excludes'.
Proof.
  intros Hfiles Hlast. rewrite !identify_by_files_cases, Hfiles.
  destruct (cfg_files config') as [files|]; [|reflexivity].
  assert (E : forall entry,
             rule_applies minimatch changed_files entry =
             rule_applies minimatch changed_files' entry).
  { intros entry. unfold rule_applies, last_changed_files. now rewrite Hlast. }
  assert (E' : existsb (rule_applies minimatch changed_files) files =
               existsb (rule_applies minimatch changed_files') files).
  { clear Hfiles. induction files as [|entry rest IH]; cbn [existsb]; [reflexivity|].
    now rewrite IH, (E entry). }
  now rewrite E'.
Qed.

Lemma identify_by_files_reads_rules_and_last_witness :
  identify_reviewers_by_changed_files simple_glob revert_config revert_changes [] =
  identify_reviewers_by_changed_files simple_glob
    {| cfg_reviewers := cfg_reviewers overlap_config;
       cfg_files := Some [("*.txt", ["bob"])];
       cfg_options := cfg_options override_config |}
    {| cf_total := {| added := ["a.txt"]; removed := []; modified := ["b.txt"] |};
       cf_last := {| added := ["a.txt"]; removed := []; modified := [] |} |}
    ["bob"].
Proof.
  apply identify_by_files_reads_rules_and_last; reflexivity.
Defined.

(* ===================================================================== *)
(* Properties of the platform boundary                                    *)
(* ===================================================================== *)

(* --------------------------------------------------------------------- *)
(* Team prefix                                                            *)
(* --------------------------------------------------------------------- *)

Lemma drop_chars_append p s : drop_chars (String.length p) (p ++ s) = s.
Proof. induction p as [|c p IH]; simpl; [now destruct s | assumption]. Qed.

Lemma prefix_of_append p s : String.prefix p (p ++ s) = true.
Proof. apply prefix_append. now exists s. Qed.

Lemma remove_first_at_start p s : remove_first p (p ++ s) = s.
Proof.
  destruct (p ++ s)%string eqn:E; cbn [remove_first]; rewrite <- E;
    rewrite prefix_of_append; apply drop_chars_append.
Qed.

Lemma remove_first_absent p s : str_includes s p = false -> remove_first p s = s.
Proof.
  induction s as [|c s IH]; cbn [str_includes remove_first].
  - destruct (String.prefix p ""); [discriminate | reflexivity].
  - destruct (String.prefix p (String c s)); [discriminate|].
    intros H. now rewrite IH.
Qed.

Section TeamPrefixFacts.

Variable GITHUB_TEAM_PREFIX : string.

Lemma with_prefix_has_prefix team_slug :
  has_team_prefix GITHUB_TEAM_PREFIX
    (team_slug_to_team_with_prefix GITHUB_TEAM_PREFIX team_slug) = true.
Proof. apply prefix_of_append. Qed.

Lemma to_slug_with_prefix team_slug :
  team_with_prefix_to_team_slug GITHUB_TEAM_PREFIX
    (team_slug_to_team_with_prefix GITHUB_TEAM_PREFIX team_slug) = team_slug.
Proof. apply remove_first_at_start. Qed.

Lemma with_prefix_to_slug team :
  has_team_prefix GITHUB_TEAM_PREFIX team = true ->
  team_slug_to_team_with_prefix GITHUB_TEAM_PREFIX
    (team_with_prefix_to_team_slug GITHUB_TEAM_PREFIX team) = team.
Proof.
  intros H. apply prefix_append in H as [after ->].
  unfold team_with_prefix_to_team_slug, team_slug_to_team_with_prefix.
  now rewrite remove_first_at_start.
Qed.

End TeamPrefixFacts.

(** X10: team names round trip through the prefix helpers.  For every
    prefix and every team slug, team_slug_to_team_with_prefix gives a string
    that has_team_prefix accepts and that team_with_prefix_to_team_slug
    turns back into the slug, also when the slug contains the prefix
    itself. *)
Theorem team_slug_round_trip prefix team_slug :
  has_team_prefix prefix (team_slug_to_team_with_prefix prefix team_slug) = true /\
  team_with_prefix_to_team_slug prefix (team_slug_to_team_with_prefix prefix team_slug)
    = team_slug.
Proof.
  unfold has_team_prefix, team_with_prefix_to_team_slug, team_slug_to_team_with_prefix.
  split.
  - apply prefix_append. now exists team_slug.
  - apply remove_first_at_start.
Qed.

(** X11: for a string that has the team prefix, removing the prefix and
    putting it back gives the string again. *)
Theorem team_with_prefix_round_trip prefix team :
  has_team_prefix prefix team = true ->
  team_slug_to_team_with_prefix prefix (team_with_prefix_to_team_slug prefix team) = team.
Proof.
  unfold has_team_prefix. intros H.
  apply prefix_append in H as [after ->].
  unfold team_with_prefix_to_team_slug, team_slug_to_team_with_prefix.
  now rewrite remove_first_at_start.
Qed.

Lemma team_with_prefix_round_trip_witness :
  team_slug_to_team_with_prefix team_prefix
    (team_with_prefix_to_team_slug team_prefix "team:core") = "team:core".
Proof. apply team_with_prefix_round_trip. reflexivity. Defined.

(** X12: team_with_prefix_to_team_slug leaves a string in which the prefix
    does not occur as it is. *)
Theorem team_slug_of_unprefixed prefix name :
  ~ occurs_in prefix name ->
  team_with_prefix_to_team_slug prefix name = name.
Proof.
  intros H. apply remove_first_absent.
  destruct (str_includes name prefix) eqn:E; [|reflexivity].
  now apply str_includes_occurs in E.
Qed.

Lemma team_slug_of_unprefixed_witness :
  team_with_prefix_to_team_slug team_prefix "alice" = "alice".
Proof.
  apply team_slug_of_unprefixed.
  intros H. apply str_includes_occurs in H. discriminate.
Defined.

(* --------------------------------------------------------------------- *)
(* assign_reviewers                                                       *)
(* --------------------------------------------------------------------- *)

Lemma filter_split_length {A} (f : A -> bool) l :
  length (filter (fun x => negb (f x)) l) + length (filter f l) = length l.
Proof.
  induction l as [|x l IH]; simpl; [reflexivity|].
  destruct (f x); simpl; lia.
Qed.

(** X13: assign_reviewers loses and invents no reviewer.  The individuals
    it requests are the reviewers without the team prefix, in their order;
    putting the prefix back on the team slugs it requests gives the
    reviewers with the prefix, in their order; and the two lists together
    are as long as the input. *)
Theorem assign_reviewers_splits prefix context reviewers :
  let request := assign_reviewers prefix context reviewers in
  rq_reviewers request = filter (fun r => negb (has_team_prefix prefix r)) reviewers /\
  map (team_slug_to_team_with_prefix prefix) (rq_team_reviewers request)
    = filter (has_team_prefix prefix) reviewers /\
  length (rq_reviewers request) + length (rq_team_reviewers request) = length reviewers.
Proof.
  unfold assign_reviewers. rewrite partition_as_filter. cbn.
  split; [reflexivity|]. split.
  - rewrite map_map. rewrite <- (map_id (filter _ reviewers)) at 2.
    apply map_ext_in. intros team Hin. apply filter_In in Hin as [_ Hp].
    now apply with_prefix_to_slug.
  - rewrite length_map. apply filter_split_length.
Qed.

(* --------------------------------------------------------------------- *)
(* filter_out_reviewers_by_individuals                                    *)
(* --------------------------------------------------------------------- *)

Lemma has_excluded_individuals_iff individuals_to_exclude pages :
  has_excluded_individuals individuals_to_exclude pages = true <->
  exists members login,
    In members pages /\ In login members /\ In login individuals_to_exclude.
Proof.
  induction pages as [|members rest IH]; cbn [has_excluded_individuals].
  - split; [discriminate | intros [m [l [[] _]]]].
  - destruct (existsb _ members) eqn:E.
    + split; [intros _ | reflexivity].
      apply existsb_exists in E as [login [Hin Hex]]. apply includes_In in Hex.
      exists members, login. repeat split; [now left | assumption | assumption].
    + rewrite IH. split.
      * intros [m [l [Hm H]]]. exists m, l. split; [now right | assumption].
      * intros [m [l [[<-|Hm] [Hl Hex]]]]; [|eauto].
        assert (existsb (fun login => includes individuals_to_exclude login) members = true).
        { apply existsb_exists. exists l. split; [assumption | now apply includes_In]. }
        congruence.
Qed.

Lemma has_excluded_individuals_nil pages : has_excluded_individuals [] pages = false.
Proof.
  destruct (has_excluded_individuals [] pages) eqn:E; [|reflexivity].
  apply has_excluded_individuals_iff in E as [m [l [_ [_ []]]]].
Qed.

Section FilterOutFacts.

Variable GITHUB_TEAM_PREFIX : string.
Variable listMembersInOrg : string -> string -> list (list string).

Lemma keep_individuals_filter individuals_to_exclude l results :
  keep_individuals GITHUB_TEAM_PREFIX individuals_to_exclude l results =
  results ++ filter (individual_stays GITHUB_TEAM_PREFIX individuals_to_exclude) l.
Proof.
  revert results. induction l as [|x l IH]; intros results; cbn [keep_individuals filter].
  - now rewrite app_nil_r.
  - unfold individual_stays at 1.
    destruct (has_team_prefix GITHUB_TEAM_PREFIX x); cbn [negb andb]; [apply IH|].
    destruct (includes individuals_to_exclude x); cbn [negb]; [apply IH|].
    rewrite IH, <- app_assoc. reflexivity.
Qed.

Lemma keep_teams_filter org individuals_to_exclude l results :
  keep_teams GITHUB_TEAM_PREFIX listMembersInOrg org individuals_to_exclude l results =
  results ++ filter (team_stays GITHUB_TEAM_PREFIX listMembersInOrg org individuals_to_exclude) l.
Proof.
  revert results. induction l as [|x l IH]; intros results; cbn [keep_teams filter].
  - now rewrite app_nil_r.
  - unfold team_stays at 1.
    destruct (has_team_prefix GITHUB_TEAM_PREFIX x); cbn [negb andb]; [|apply IH].
    destruct (has_excluded_individuals _ _); cbn [negb]; [apply IH|].
    rewrite IH, <- app_assoc. reflexivity.
Qed.

End FilterOutFacts.

Lemma filter_out_individuals_then_teams_aux
    prefix listMembersInOrg context individuals_and_teams individuals_to_exclude :
  filter_out_reviewers_by_individuals prefix listMembersInOrg context
    individuals_and_teams individuals_to_exclude =
  filter (individual_stays prefix individuals_to_exclude) individuals_and_teams
  ++ filter (team_stays prefix listMembersInOrg (owner context) individuals_to_exclude)
       individuals_and_teams.
Proof.
  unfold filter_out_reviewers_by_individuals.
  now rewrite keep_teams_filter, keep_individuals_filter.
Qed.

(** X14: filter_out_reviewers_by_individuals returns the individuals that
    stay, in input order, followed by the teams that stay, in input order:
    individuals come before teams whatever the order of the input. *)
Theorem filter_out_individuals_then_teams
    prefix listMembersInOrg context individuals_and_teams individuals_to_exclude :
  filter_out_reviewers_by_individuals prefix listMembersInOrg context
    individuals_and_teams individuals_to_exclude =
  filter (individual_stays prefix individuals_to_exclude) individuals_and_teams
  ++ filter (team_stays prefix listMembersInOrg (owner context) individuals_to_exclude)
       individuals_and_teams.
Proof.
  unfold filter_out_reviewers_by_individuals.
  rewrite keep_teams_filter, keep_individuals_filter.
  reflexivity.
Qed.

(** X15: what filter_out_reviewers_by_individuals keeps.  A name is in the
    result exactly when it is in the input and either has no team prefix and
    is not excluded, or has the team prefix and no page of the members of
    its team (looked up in the owner's organisation under the slug) holds an
    excluded login. *)
Theorem filter_out_membership
    prefix listMembersInOrg context individuals_and_teams individuals_to_exclude x :
  In x (filter_out_reviewers_by_individuals prefix listMembersInOrg context
          individuals_and_teams individuals_to_exclude) <->
  In x individuals_and_teams /\
  ((has_team_prefix prefix x = false /\ ~ In x individuals_to_exclude) \/
   (has_team_prefix prefix x = true /\
    ~ exists members login,
        In members (listMembersInOrg (owner context)
                      (team_with_prefix_to_team_slug prefix x)) /\
        In login members /\ In login individuals_to_exclude)).
Proof.
  rewrite filter_out_individuals_then_teams_aux.
  rewrite in_app_iff, !filter_In. unfold individual_stays, team_stays.
  rewrite <- has_excluded_individuals_iff, <- includes_not_In.
  destruct (has_team_prefix prefix x), (includes individuals_to_exclude x),
    (has_excluded_individuals _ _); cbn; intuition congruence.
Qed.

(** X16: with nobody to exclude, filter_out_reviewers_by_individuals keeps
    every name: the result is the input regrouped, individuals first and
    teams after, and is as long as the input. *)
Theorem filter_out_nobody prefix listMembersInOrg context individuals_and_teams :
  filter_out_reviewers_by_individuals prefix listMembersInOrg context
    individuals_and_teams [] =
  filter (fun x => negb (has_team_prefix prefix x)) individuals_and_teams
  ++ filter (has_team_prefix prefix) individuals_and_teams /\
  length (filter_out_reviewers_by_individuals prefix listMembersInOrg context
            individuals_and_teams []) = length individuals_and_teams.
Proof.
  rewrite filter_out_individuals_then_teams_aux.
  assert (E : filter (individual_stays prefix []) individuals_and_teams
              ++ filter (team_stays prefix listMembersInOrg (owner context) [])
                   individuals_and_teams
            = filter (fun x => negb (has_team_prefix prefix x)) individuals_and_teams
              ++ filter (has_team_prefix prefix) individuals_and_teams).
  { f_equal; apply filter_ext; intros x.
    - unfold individual_stays. cbn. apply andb_true_r.
    - unfold team_stays. rewrite has_excluded_individuals_nil. apply andb_true_r. }
  rewrite E. split; [reflexivity|].
  rewrite length_app. apply filter_split_length.
Qed.

(* --------------------------------------------------------------------- *)
(* fetch_changed_files                                                    *)
(* --------------------------------------------------------------------- *)

Lemma append_changes_nil changes : append_changes no_changes changes = changes.
Proof. now destruct changes. Qed.

Lemma record_files_known changes files :
  forallb known_status files = true ->
  record_files changes files = inr (append_changes changes (by_status files)).
Proof.
  revert changes. induction files as [|[name st] files IH]; intros changes H.
  - destruct changes. unfold append_changes. cbn. now rewrite !app_nil_r.
  - cbn [forallb] in H. apply andb_true_iff in H as [Hk Hrest].
    cbn [record_files]. unfold push_by_status. unfold known_status in Hk.
    unfold by_status, with_status, append_changes. cbn [filter status filename] in *.
    destruct (String.eqb st "added") eqn:Ea.
    + apply String.eqb_eq in Ea. subst st. cbn. rewrite (IH _ Hrest).
      unfold append_changes, by_status, with_status. cbn. now rewrite <- !app_assoc.
    + destruct (String.eqb st "removed") eqn:Er.
      * apply String.eqb_eq in Er. subst st. cbn. rewrite (IH _ Hrest).
        unfold append_changes, by_status, with_status. cbn. now rewrite <- !app_assoc.
      * destruct (String.eqb st "modified") eqn:Em; [|discriminate].
        apply String.eqb_eq in Em. subst st. cbn. rewrite (IH _ Hrest).
        unfold append_changes, by_status, with_status. cbn. now rewrite <- !app_assoc.
Qed.

Lemma record_files_unknown changes files :
  forallb known_status files = false ->
  record_files changes files = inl TypeError.
Proof.
  revert changes. induction files as [|file files IH]; intros changes H; [discriminate|].
  cbn [forallb] in H. cbn [record_files]. unfold push_by_status, known_status in *.
  destruct (String.eqb (status file) "added"); cbn in *; [now rewrite IH|].
  destruct (String.eqb (status file) "removed"); cbn in *; [now rewrite IH|].
  destruct (String.eqb (status file) "modified"); cbn in *; [now rewrite IH | reflexivity].
Qed.

Lemma by_status_app files more :
  by_status (files ++ more) = append_changes (by_status files) (by_status more).
Proof.
  unfold by_status, with_status, append_changes. cbn.
  now rewrite !filter_app, !map_app.
Qed.

Lemma append_changes_assoc a b c :
  append_changes (append_changes a b) c = append_changes a (append_changes b c).
Proof. unfold append_changes. cbn. now rewrite !app_assoc. Qed.

Lemma record_pages_known changes pages :
  forallb known_status (concat pages) = true ->
  record_pages changes pages = inr (append_changes changes (by_status (concat pages))).
Proof.
  revert changes. induction pages as [|files pages IH]; intros changes H.
  - destruct changes. unfold append_changes. cbn. now rewrite !app_nil_r.
  - cbn [concat] in H. rewrite forallb_app in H. apply andb_true_iff in H as [Hf Hp].
    cbn [record_pages concat]. rewrite (record_files_known _ _ Hf). cbn.
    rewrite (IH _ Hp). now rewrite by_status_app, append_changes_assoc.
Qed.

Lemma record_pages_unknown changes pages :
  forallb known_status (concat pages) = false ->
  record_pages changes pages = inl TypeError.
Proof.
  revert changes. induction pages as [|files pages IH]; intros changes H; [discriminate|].
  cbn [concat] in H. rewrite forallb_app in H. cbn [record_pages].
  destruct (forallb known_status files) eqn:Hf.
  - rewrite (record_files_known _ _ Hf). cbn. now apply IH.
  - now rewrite (record_files_unknown _ _ Hf).
Qed.

Lemma by_status_length files :
  forallb known_status files = true ->
  length (added (by_status files)) + length (removed (by_status files))
    + length (modified (by_status files)) = length files.
Proof.
  unfold by_status, with_status. cbn. rewrite !length_map.
  induction files as [|[name st] files IH]; [reflexivity|].
  cbn [forallb filter length]. unfold known_status at 1. cbn [status].
  intros H. apply andb_true_iff in H as [Hk Hrest]. specialize (IH Hrest).
  destruct (String.eqb st "added") eqn:Ea.
  - apply String.eqb_eq in Ea. subst st. cbn. lia.
  - destruct (String.eqb st "removed") eqn:Er.
    + apply String.eqb_eq in Er. subst st. cbn. lia.
    + destruct (String.eqb st "modified") eqn:Em; [|discriminate]. cbn. lia.
Qed.

Lemma nth_last_two {A} (earlier : list A) prev last d :
  nth (length (earlier ++ [prev; last]) - 2) (earlier ++ [prev; last]) d = prev /\
  nth (length (earlier ++ [prev; last]) - 1) (earlier ++ [prev; last]) d = last.
Proof.
  rewrite length_app. cbn [length]. split.
  - rewrite app_nth2 by lia. now replace (_ - _ - _) with 0 by lia.
  - rewrite app_nth2 by lia. now replace (_ - _ - _) with 1 by lia.
Qed.

(** X17: fetch_changed_files raises on a file status it has no list for.
    If one entry of one page of listFiles has a status other than added,
    removed and modified (renamed, for instance), the call raises a
    TypeError, whatever the commits are. *)
Theorem fetch_changed_files_unknown_status compareCommits pages commits files file :
  In files pages ->
  In file files ->
  known_status file = false ->
  fetch_changed_files compareCommits pages commits = inl TypeError.
Proof.
  intros Hpage Hfile Hunknown. unfold fetch_changed_files.
  rewrite record_pages_unknown; [reflexivity|].
  destruct (forallb known_status (concat pages)) eqn:E; [|reflexivity].
  rewrite forallb_forall in E.
  assert (Hin : In file (concat pages)) by (apply in_concat; eauto).
  specialize (E _ Hin). congruence.
Qed.

Lemma fetch_changed_files_unknown_status_witness :
  fetch_changed_files (fun _ _ => [])
    [[{| filename := "a.txt"; status := "added" |}];
     [{| filename := "b.txt"; status := "renamed" |}]]
    ["c0ffee"] = inl TypeError.
Proof.
  apply (fetch_changed_files_unknown_status _ _ _
           [{| filename := "b.txt"; status := "renamed" |}]
           {| filename := "b.txt"; status := "renamed" |}).
  - simpl. right. now left.
  - simpl. now left.
  - reflexivity.
Defined.

(** X18: for a pull request of at most one commit, with every listed status
    among added, removed and modified, fetch_changed_files returns the files
    of listFiles sorted by status, pages taken in order, and the last change
    set is the total one; compareCommits plays no part. *)
Theorem fetch_changed_files_single_commit compareCommits pages commits :
  length commits <= 1 ->
  forallb known_status (concat pages) = true ->
  fetch_changed_files compareCommits pages commits =
  inr {| cf_total := by_status (concat pages); cf_last := by_status (concat pages) |}.
Proof.
  intros Hlen Hknown. unfold fetch_changed_files.
  assert (E : Nat.ltb 1 (length commits) = false) by (apply Nat.ltb_ge; lia).
  rewrite E, (record_pages_known _ _ Hknown), append_changes_nil. reflexivity.
Qed.

Lemma fetch_changed_files_single_commit_witness :
  fetch_changed_files (fun _ _ => [{| filename := "z"; status := "renamed" |}])
    [[{| filename := "a.txt"; status := "added" |}];
     [{| filename := "b.txt"; status := "modified" |}]]
    ["c0ffee"] =
  inr {| cf_total := {| added := ["a.txt"]; removed := []; modified := ["b.txt"] |};
         cf_last := {| added := ["a.txt"]; removed := []; modified := ["b.txt"] |} |}.
Proof.
  apply (fetch_changed_files_single_commit _
           [[{| filename := "a.txt"; status := "added" |}];
            [{| filename := "b.txt"; status := "modified" |}]] ["c0ffee"]).
  - simpl. lia.
  - reflexivity.
Defined.

(** X19: for a pull request of two commits or more, fetch_changed_files
    compares the commit before the last one (as base) with the last one (as
    head), whatever comes before them, and returns the files of that
    comparison sorted by status as the last change set, next to the files of
    listFiles as the total one. *)
Theorem fetch_changed_files_last_two_commits compareCommits pages earlier prev last :
  forallb known_status (concat pages) = true ->
  forallb known_status (compareCommits prev last) = true ->
  fetch_changed_files compareCommits pages (earlier ++ [prev; last]) =
  inr {| cf_total := by_status (concat pages);
         cf_last := by_status (compareCommits prev last) |}.
Proof.
  intros Hknown Hlast. unfold fetch_changed_files.
  assert (E : Nat.ltb 1 (length (earlier ++ [prev; last])) = true).
  { apply Nat.ltb_lt. rewrite length_app. cbn [length]. lia. }
  destruct (nth_last_two earlier prev last "") as [Hprev Hlst].
  rewrite E, Hprev, Hlst.
  rewrite (record_pages_known _ _ Hknown), (record_files_known _ _ Hlast).
  now rewrite !append_changes_nil.
Qed.

Lemma fetch_changed_files_last_two_commits_witness :
  fetch_changed_files
    (fun base head =>
       if String.eqb base "b2" && String.eqb head "c3"
       then [{| filename := "b.txt"; status := "removed" |}]
       else [{| filename := "z"; status := "renamed" |}])
    [[{| filename := "a.txt"; status := "added" |}]]
    (["a1"] ++ ["b2"; "c3"]) =
  inr {| cf_total := {| added := ["a.txt"]; removed := []; modified := [] |};
         cf_last := {| added := []; removed := ["b.txt"]; modified := [] |} |}.
Proof.
  apply (fetch_changed_files_last_two_commits
           (fun base head =>
              if String.eqb base "b2" && String.eqb head "c3"
              then [{| filename := "b.txt"; status := "removed" |}]
              else [{| filename := "z"; status := "renamed" |}])
           [[{| filename := "a.txt"; status := "added" |}]] ["a1"] "b2" "c3");
    reflexivity.
Defined.

(** X20: when fetch_changed_files returns, every file of listFiles is in
    exactly one of total.added, total.removed and total.modified: the three
    lists together are as long as the listing. *)
Theorem fetch_changed_files_total_count compareCommits pages commits changed_files :
  fetch_changed_files compareCommits pages commits = inr changed_files ->
  length (added (cf_total changed_files)) + length (removed (cf_total changed_files))
    + length (modified (cf_total changed_files)) = length (concat pages).
Proof.
  unfold fetch_changed_files.
  destruct (forallb known_status (concat pages)) eqn:Hknown.
  - rewrite (record_pages_known _ _ Hknown), append_changes_nil.
    destruct (Nat.ltb 1 (length commits)); cbn.
    + destruct (record_files no_changes _) as [e|last_changes]; cbn; [discriminate|].
      intros H. injection H as <-. cbn [cf_total]. now apply by_status_length.
    + intros H. injection H as <-. cbn [cf_total]. now apply by_status_length.
  - rewrite (record_pages_unknown _ _ Hknown). discriminate.
Qed.

Lemma fetch_changed_files_total_count_witness :
  length ["a.txt"] + length (@nil string) + length ["b.txt"] =
  length (concat [[{| filename := "a.txt"; status := "added" |}];
                  [{| filename := "b.txt"; status := "modified" |}]]).
Proof.
  apply (fetch_changed_files_total_count (fun _ _ => [])
           [[{| filename := "a.txt"; status := "added" |}];
            [{| filename := "b.txt"; status := "modified" |}]] ["c0ffee"]
           {| cf_total := {| added := ["a.txt"]; removed := []; modified := ["b.txt"] |};
              cf_last := {| added := ["a.txt"]; removed := []; modified := ["b.txt"] |} |}).
  reflexivity.
Defined.

(* --------------------------------------------------------------------- *)
(* fetch_review_info                                                      *)
(* --------------------------------------------------------------------- *)

Lemma record_reviews_by_state reviews info :
  fold_left record_review reviews info =
  {| pending := pending info;
     approved := approved info ++ with_state "APPROVED" reviews;
     commented := commented info ++ with_state "COMMENTED" reviews;
     changes_requested := changes_requested info ++ with_state "CHANGES_REQUESTED" reviews |}.
Proof.
  revert info. induction reviews as [|[lg st] reviews IH]; intros info.
  - destruct info. unfold with_state. cbn. now rewrite !app_nil_r.
  - cbn [fold_left]. rewrite IH. unfold record_review, with_state.
    cbn [filter review_state login].
    destruct (String.eqb st "COMMENTED") eqn:Ec.
    + apply String.eqb_eq in Ec. subst st. cbn. now rewrite <- !app_assoc.
    + destruct (String.eqb st "APPROVED") eqn:Ea.
      * apply String.eqb_eq in Ea. subst st. cbn. now rewrite <- !app_assoc.
      * destruct (String.eqb st "CHANGES_REQUESTED") eqn:Er; [|reflexivity].
        apply String.eqb_eq in Er. subst st. cbn. now rewrite <- !app_assoc.
Qed.

Lemma with_state_app s reviews more :
  with_state s (reviews ++ more) = with_state s reviews ++ with_state s more.
Proof. unfold with_state. now rewrite filter_app, map_app. Qed.

Lemma record_review_pages_by_state review_pages info :
  fold_left (fun info reviews => fold_left record_review reviews info) review_pages info =
  {| pending := pending info;
     approved := approved info ++ with_state "APPROVED" (concat review_pages);
     commented := commented info ++ with_state "COMMENTED" (concat review_pages);
     changes_requested :=
       changes_requested info ++ with_state "CHANGES_REQUESTED" (concat review_pages) |}.
Proof.
  revert info. induction review_pages as [|reviews pages IH]; intros info.
  - destruct info. unfold with_state. cbn. now rewrite !app_nil_r.
  - cbn [fold_left concat]. rewrite IH, record_reviews_by_state. cbn.
    now rewrite !with_state_app, !app_assoc.
Qed.

Lemma push_pending_all {A} (f : A -> string) l info :
  fold_left (fun info x => push_pending info (f x)) l info =
  {| pending := pending info ++ map f l; approved := approved info;
     commented := commented info; changes_requested := changes_requested info |}.
Proof.
  revert info. induction l as [|x l IH]; intros info.
  - destruct info. cbn. now rewrite app_nil_r.
  - cbn [fold_left map]. rewrite IH. cbn. now rewrite <- app_assoc.
Qed.

Section ReviewInfoFacts.

Variable GITHUB_TEAM_PREFIX : string.

Lemma record_requested_pending info page :
  record_requested GITHUB_TEAM_PREFIX info page =
  {| pending := pending info ++ users page
                ++ map (team_slug_to_team_with_prefix GITHUB_TEAM_PREFIX) (teams page);
     approved := approved info; commented := commented info;
     changes_requested := changes_requested info |}.
Proof.
  unfold record_requested.
  rewrite (push_pending_all (team_slug_to_team_with_prefix GITHUB_TEAM_PREFIX)).
  change (fold_left push_pending (users page) info)
    with (fold_left (fun info x => push_pending info ((fun u : string => u) x))
            (users page) info).
  rewrite (push_pending_all (fun u : string => u)). cbn.
  now rewrite map_id, app_assoc.
Qed.

Lemma record_requested_pages requested_pages info :
  fold_left (record_requested GITHUB_TEAM_PREFIX) requested_pages info =
  {| pending :=
       pending info
       ++ flat_map (fun page =>
                      users page
                      ++ map (team_slug_to_team_with_prefix GITHUB_TEAM_PREFIX) (teams page))
                   requested_pages;
     approved := approved info; commented := commented info;
     changes_requested := changes_requested info |}.
Proof.
  revert info. induction requested_pages as [|page pages IH]; intros info.
  - destruct info. cbn. now rewrite app_nil_r.
  - cbn [fold_left flat_map]. rewrite IH, record_requested_pending. cbn.
    now rewrite <- !app_assoc.
Qed.

Lemma fetch_review_info_value review_pages requested_pages :
  fetch_review_info GITHUB_TEAM_PREFIX review_pages requested_pages =
  {| pending :=
       flat_map (fun page =>
                   users page
                   ++ map (team_slug_to_team_with_prefix GITHUB_TEAM_PREFIX) (teams page))
                requested_pages;
     approved := with_state "APPROVED" (concat review_pages);
     commented := with_state "COMMENTED" (concat review_pages);
     changes_requested := with_state "CHANGES_REQUESTED" (concat review_pages) |}.
Proof.
  unfold fetch_review_info.
  now rewrite record_requested_pages, record_review_pages_by_state.
Qed.

End ReviewInfoFacts.

(** X21: fetch_review_info sorts the reviews by state.  The approved,
    commented and changes_requested lists hold the logins of the reviews in
    state APPROVED, COMMENTED and CHANGES_REQUESTED, in the order of the
    pages, one entry per review (a login is repeated when its user reviewed
    more than once); a review in any other state is in none of them, and the
    requested reviewers do not change them. *)
Theorem fetch_review_info_by_state prefix review_pages requested_pages :
  let review_info := fetch_review_info prefix review_pages requested_pages in
  approved review_info = with_state "APPROVED" (concat review_pages) /\
  commented review_info = with_state "COMMENTED" (concat review_pages) /\
  changes_requested review_info = with_state "CHANGES_REQUESTED" (concat review_pages).
Proof.
  cbv zeta. unfold fetch_review_info.
  rewrite record_requested_pages, record_review_pages_by_state.
  cbn. now repeat split.
Qed.

(** X22: the pending list of fetch_review_info holds, page after page of
    the requested reviewers, the logins of the users followed by the names
    of the teams with the team prefix put before each; the reviews do not
    change it. *)
Theorem fetch_review_info_pending prefix review_pages requested_pages :
  pending (fetch_review_info prefix review_pages requested_pages) =
  flat_map (fun page =>
              users page ++ map (team_slug_to_team_with_prefix prefix) (teams page))
           requested_pages.
Proof.
  unfold fetch_review_info.
  rewrite record_requested_pages, record_review_pages_by_state.
  reflexivity.
Qed.

Lemma filter_none {A} (f : A -> bool) l :
  (forall x, In x l -> f x = false) -> filter f l = [].
Proof.
  induction l as [|y l IH]; intros H; simpl; [reflexivity|].
  rewrite (H y (or_introl eq_refl)). apply IH. intros x Hx. apply H. now right.
Qed.

(** X23: requested reviewers survive the way out and back.  When no
    requested user's login has the team prefix, handing the pending list of
    fetch_review_info to assign_reviewers requests the users' logins as
    individuals and the teams' names as teams, each list in the order of the
    pages. *)
Theorem pending_reviewers_are_reassigned prefix context review_pages requested_pages :
  (forall page user,
     In page requested_pages -> In user (users page) ->
     has_team_prefix prefix user = false) ->
  let request :=
    assign_reviewers prefix context
      (pending (fetch_review_info prefix review_pages requested_pages)) in
  rq_reviewers request = flat_map users requested_pages /\
  rq_team_reviewers request = flat_map teams requested_pages.
Proof.
  intros Husers. cbv zeta. rewrite fetch_review_info_value. cbn [pending].
  unfold assign_reviewers. rewrite partition_as_filter. cbn.
  induction requested_pages as [|page pages IH]; [now split|].
  cbn [flat_map]. rewrite !filter_app, !map_app.
  destruct IH as [IHr IHt].
  { intros p u Hp. apply Husers. now right. }
  rewrite IHr, IHt.
  assert (Hu : forall u, In u (users page) -> has_team_prefix prefix u = false)
    by (intros u; apply Husers; now left).
  rewrite (filter_none (has_team_prefix prefix) (users page) Hu).
  rewrite (filter_all (fun x => negb (has_team_prefix prefix x)) (users page))
    by (intros u Hin; now rewrite (Hu u Hin)).
  rewrite (filter_all (has_team_prefix prefix)
             (map (team_slug_to_team_with_prefix prefix) (teams page))).
  2: { intros t Hin. apply in_map_iff in Hin as [name [<- _]].
       apply with_prefix_has_prefix. }
  rewrite (filter_none (fun x => negb (has_team_prefix prefix x))
             (map (team_slug_to_team_with_prefix prefix) (teams page))).
  2: { intros t Hin. apply in_map_iff in Hin as [name [<- _]].
       now rewrite with_prefix_has_prefix. }
  cbn. rewrite app_nil_r. split; [reflexivity|].
  f_equal. rewrite map_map. rewrite <- (map_id (teams page)) at 2.
  apply map_ext. intros name. apply to_slug_with_prefix.
Qed.

Lemma pending_reviewers_are_reassigned_witness :
  rq_reviewers
    (assign_reviewers team_prefix example_context
       (pending (fetch_review_info team_prefix []
                   [{| users := ["alice"]; teams := ["core"] |};
                    {| users := ["bob"]; teams := [] |}])))
    = ["alice"; "bob"] /\
  rq_team_reviewers
    (assign_reviewers team_prefix example_context
       (pending (fetch_review_info team_prefix []
                   [{| users := ["alice"]; teams := ["core"] |};
                    {| users := ["bob"]; teams := [] |}])))
    = ["core"].
Proof.
  apply (pending_reviewers_are_reassigned team_prefix example_context []
           [{| users := ["alice"]; teams := ["core"] |};
            {| users := ["bob"]; teams := [] |}]).
  intros page user [<-|[<-|[]]] [<-|[]]; reflexivity.
Defined.

(* --------------------------------------------------------------------- *)
(* Module-level caches                                                    *)
(* --------------------------------------------------------------------- *)

(** X24: use_local is read once and for all.  However the caches stand, a
    second get_use_local answers what the first one answered, also when
    clear_cache ran in between and the use_local input changed: clear_cache
    does not reset use_local_cache.  From empty caches the answer is whether
    the input is the string true. *)
Theorem use_local_survives_clear_cache
    (GithubContext Octokit : Type) (env env' : Env GithubContext)
    (c : Caches GithubContext Octokit) :
  evalState (get_use_local env ;; clear_cache ;; get_use_local env') c
    = evalState (get_use_local env) c /\
  evalState (get_use_local env) (@no_caches GithubContext Octokit)
    = String.eqb (getInput env "use_local") "true".
Proof.
  unfold evalState. split; [|reflexivity].
  destruct c as [cc tc pc [u|] oc]; reflexivity.
Qed.

(** X25: clear_cache makes get_config_path read its input again: after
    clear_cache the path returned is the current config input, whatever was
    cached before. *)
Theorem config_path_read_again_after_clear_cache
    (GithubContext Octokit : Type) (env env' : Env GithubContext)
    (c : Caches GithubContext Octokit) :
  evalState (get_config_path env ;; clear_cache ;; get_config_path env') c
    = getInput env' "config".
Proof.
  unfold evalState. destruct c as [cc tc [p|] uc oc]; cbn; [|reflexivity].
  destruct (String.eqb p ""); reflexivity.
Qed.

(** X26: get_config_path caches a path only when it is not empty.  Without
    clear_cache in between, a second call returns what the first one
    returned, unless that was the empty string: then the input is read
    again. *)
Theorem config_path_cached_unless_empty
    (GithubContext Octokit : Type) (env env' : Env GithubContext)
    (c : Caches GithubContext Octokit) :
  evalState (get_config_path env ;; get_config_path env') c =
  if String.eqb (evalState (get_config_path env) c) ""
  then getInput env' "config"
  else evalState (get_config_path env) c.
Proof.
  unfold evalState. destruct c as [cc tc [p|] uc oc]; cbn.
  - destruct (String.eqb p "") eqn:E; cbn.
    + destruct (String.eqb (getInput env "config") "") eqn:E'; reflexivity.
    + now rewrite !E.
  - destruct (String.eqb (getInput env "config") "") eqn:E'; reflexivity.
Qed.

(** X27: the client is built once.  A second get_octokit returns the client
    of the first, also when the token input changed in between; after
    clear_cache the client is built anew from the token input of the
    moment. *)
Theorem octokit_built_once
    (GithubContext Octokit : Type) (getOctokit : string -> Octokit)
    (env env' : Env GithubContext) (c : Caches GithubContext Octokit) :
  evalState (get_octokit getOctokit env ;; get_octokit getOctokit env') c
    = evalState (get_octokit getOctokit env) c /\
  evalState (clear_cache ;; get_octokit getOctokit env') c
    = getOctokit (getInput env' "token").
Proof.
  unfold evalState. split.
  - destruct c as [cc [t|] pc uc [o|]]; cbn; try reflexivity.
    destruct (String.eqb t ""); reflexivity.
  - destruct c as [cc tc pc uc oc]. reflexivity.
Qed.
